(** * unsplash-source-js: the [UnsplashPhoto] URL builder of [src/core.js]

    A shallow embedding of the builder object, of its chainable methods and
    of the terminal [fetch], together with the part of the JavaScript
    semantics these methods rely on (truthiness, string conversion, [==]
    against a string literal, [split], [trim], [join], [encodeURI]). *)

From Stdlib Require Import List NArith ZArith Bool Lia String Ascii DecimalString.
Import ListNotations.

Set Implicit Arguments.

(** ** JavaScript strings

    A JavaScript string is a finite sequence of UTF-16 code units.  A code
    unit is kept as a number in [N]; well-formed strings only hold units
    below [65536]. *)

Definition code_unit := N.
Definition jsstring := list code_unit.

(** An ASCII literal of the source, as a sequence of code units. *)
Definition lit (s : string) : jsstring :=
  List.map N_of_ascii (list_ascii_of_string s).

Fixpoint str_eqb (a b : jsstring) : bool :=
  match a, b with
  | [], [] => true
  | x :: a', y :: b' => N.eqb x y && str_eqb a' b'
  | _, _ => false
  end.

(** [Array.prototype.join] on an array of strings. *)
Fixpoint join (sep : jsstring) (l : list jsstring) : jsstring :=
  match l with
  | [] => []
  | [x] => x
  | x :: r => x ++ sep ++ join sep r
  end.

(** [String.prototype.split] with a one-unit separator: the empty string
    splits into one empty token. *)
Fixpoint split (sep : code_unit) (s : jsstring) : list jsstring :=
  match s with
  | [] => [[]]
  | c :: r =>
      if N.eqb c sep then [] :: split sep r
      else match split sep r with
           | [] => [[c]]
           | t :: ts => (c :: t) :: ts
           end
  end.

(** WhiteSpace and LineTerminator code points of ECMAScript, the ones
    [String.prototype.trim] removes. *)
Definition is_white_space (c : code_unit) : bool :=
  ((9 <=? c) && (c <=? 13) || (c =? 32) || (c =? 160) || (c =? 5760)
   || (8192 <=? c) && (c <=? 8202) || (c =? 8232) || (c =? 8233)
   || (c =? 8239) || (c =? 8287) || (c =? 12288) || (c =? 65279))%N.

Fixpoint trim_start (s : jsstring) : jsstring :=
  match s with
  | [] => []
  | c :: r => if is_white_space c then trim_start r else s
  end.

Definition trim_end (s : jsstring) : jsstring := rev (trim_start (rev s)).

Definition trim (s : jsstring) : jsstring := trim_end (trim_start s).

(** *** [encodeURI]

    The ECMAScript [Encode] operation with the unescaped set of
    [encodeURI]: the reserved characters, the unreserved marks, letters,
    digits and [#].  Everything else is written as the percent-escaped
    octets of its UTF-8 encoding; an unpaired surrogate is a [URIError],
    here [None]. *)

Definition is_alpha (c : code_unit) : bool :=
  ((65 <=? c) && (c <=? 90) || (97 <=? c) && (c <=? 122))%N.

Definition is_digit (c : code_unit) : bool := ((48 <=? c) && (c <=? 57))%N.

Definition uri_reserved : jsstring := lit ";/?:@&=+$,".
Definition uri_marks : jsstring := lit "-_.!~*'()".

Definition uri_unescaped (c : code_unit) : bool :=
  is_alpha c || is_digit c
  || existsb (N.eqb c) uri_reserved || existsb (N.eqb c) uri_marks
  || N.eqb c 35.

Definition is_high_surrogate (c : code_unit) : bool :=
  ((55296 <=? c) && (c <=? 56319))%N.
Definition is_low_surrogate (c : code_unit) : bool :=
  ((56320 <=? c) && (c <=? 57343))%N.

Definition code_point (hi lo : code_unit) : N :=
  ((hi - 55296) * 1024 + (lo - 56320) + 65536)%N.

Definition utf8 (v : N) : list N :=
  (if v <? 128 then [v]
   else if v <? 2048 then
     [N.lor 192 (N.shiftr v 6); N.lor 128 (N.land v 63)]
   else if v <? 65536 then
     [N.lor 224 (N.shiftr v 12); N.lor 128 (N.land (N.shiftr v 6) 63);
      N.lor 128 (N.land v 63)]
   else
     [N.lor 240 (N.shiftr v 18); N.lor 128 (N.land (N.shiftr v 12) 63);
      N.lor 128 (N.land (N.shiftr v 6) 63); N.lor 128 (N.land v 63)])%N.

Definition hex_digit (d : N) : code_unit :=
  nth (N.to_nat d) (lit "0123456789ABCDEF") 48%N.

Definition percent (octet : N) : jsstring :=
  [37%N; hex_digit (N.shiftr octet 4); hex_digit (N.land octet 15)].

Definition escape_octets (l : list N) : jsstring := flat_map percent l.

Fixpoint encodeURI (s : jsstring) : option jsstring :=
  match s with
  | [] => Some []
  | c :: r =>
      if uri_unescaped c then option_map (cons c) (encodeURI r)
      else if is_low_surrogate c then None
      else if negb (is_high_surrogate c) then
        option_map (app (escape_octets (utf8 c))) (encodeURI r)
      else
        match r with
        | [] => None
        | d :: r' =>
            if is_low_surrogate d then
              option_map (app (escape_octets (utf8 (code_point c d))))
                         (encodeURI r')
            else None
        end
  end.

(** ** JavaScript values

    The values modelled for the builder's fields and arguments:
    [undefined], [null], booleans, numbers, strings and arrays of these.
    [VNum n] is the Number value of the integer [n], that is the double
    nearest to [n]; the source documents every numeric parameter as [Int].
    Symbols and objects with conversion methods of their own (or with
    none) are outside the model: converting such a value to a string, or
    comparing it with [==], can run caller code or throw. *)

Set Warnings "-register-all".
Inductive value : Type :=
| VUndefined
| VNull
| VBool (b : bool)
| VNum (n : Z)
| VStr (s : jsstring)
| VArr (elems : list value).

(** [!!v] *)
Definition ToBoolean (v : value) : bool :=
  match v with
  | VUndefined | VNull => false
  | VBool b => b
  | VNum n => negb (Z.eqb n 0)
  | VStr s => match s with [] => false | _ => true end
  | VArr _ => true
  end.

(** *** [Number::toString]

    An integer below [2^53] in size is a double and prints as its plain
    decimal numeral.  A larger one is first rounded to the nearest double,
    ties to the even significand, [Infinity] from [2^1024] on; the double
    prints with the fewest significant digits that still read back as the
    same double, of these the nearest, followed by zeros up to 21 digits
    and in exponent form beyond. *)

Definition decimal (n : Z) : jsstring :=
  lit (NilEmpty.string_of_int (Z.to_int n)).

(** The double nearest to a positive integer. *)
Definition to_double (n : Z) : Z :=
  let bits := (Z.log2 n + 1)%Z in
  if (bits <=? 53)%Z then n
  else
    let sh := (bits - 53)%Z in
    let q := Z.shiftr n sh in
    let r := (n - Z.shiftl q sh)%Z in
    let half := Z.shiftl 1 (sh - 1) in
    let q' := if (r <? half)%Z then q
              else if (half <? r)%Z then (q + 1)%Z
              else if Z.even q then q else (q + 1)%Z in
    Z.shiftl q' sh.

(** The integer with the most trailing zeros, [j] at most, that reads
    back as the double [x]; of two such, the nearer one, then the one with
    the even last digit. *)
Fixpoint shortest_from (j : nat) (x : Z) : Z :=
  let p := (10 ^ Z.of_nat j)%Z in
  let c1 := (x / p * p)%Z in
  let c2 := (c1 + p)%Z in
  let ok1 := (0 <? c1)%Z && (to_double c1 =? x)%Z in
  let ok2 := (to_double c2 =? x)%Z in
  if ok1 && ok2 then
    if (x - c1 <? c2 - x)%Z then c1
    else if (c2 - x <? x - c1)%Z then c2
    else if Z.even (c1 / p) then c1 else c2
  else if ok1 then c1
  else if ok2 then c2
  else match j with
       | O => x
       | S j' => shortest_from j' x
       end.

Fixpoint strip_zeros (s : jsstring) : jsstring :=
  match s with
  | [] => []
  | c :: r => if N.eqb c 48 then strip_zeros r else s
  end.

(** A double of [2^53] or more, finite. *)
Definition print_large (x : Z) : jsstring :=
  let v := shortest_from (List.length (decimal x)) x in
  let n := List.length (decimal v) in
  if Nat.leb n 21 then decimal v
  else
    match rev (strip_zeros (rev (decimal v))) with
    | [] => []
    | d :: rest =>
        d :: match rest with [] => [] | _ => 46%N :: rest end
        ++ lit "e+" ++ decimal (Z.of_nat n - 1)
    end.

Definition number_to_string (n : Z) : jsstring :=
  if (Z.abs n <? 9007199254740992)%Z then decimal n
  else
    (if (n <? 0)%Z then lit "-" else [])
    ++ let x := to_double (Z.abs n) in
       if (2 ^ 1024 <=? x)%Z then lit "Infinity" else print_large x.

(** The string a value turns into under [+] with a string operand.  An
    array is the comma-join of its elements, with [undefined] and [null]
    elements left empty. *)
Fixpoint ToString (v : value) : jsstring :=
  match v with
  | VUndefined => lit "undefined"
  | VNull => lit "null"
  | VBool true => lit "true"
  | VBool false => lit "false"
  | VNum n => number_to_string n
  | VStr s => s
  | VArr l =>
      join (lit ",")
        ((fix elements (l : list value) : list jsstring :=
            match l with
            | [] => []
            | x :: r =>
                match x with
                | VUndefined | VNull => []
                | _ => ToString x
                end :: elements r
            end) l)
  end.

(** [v == "<literal>"] for a literal that does not read as a number (all
    four literals of the source): a string compares by content, an array
    through its string form, every other value is unequal. *)
Definition eq_lit (v : value) (s : jsstring) : bool :=
  match v with
  | VStr t => str_eqb t s
  | VArr _ => str_eqb (ToString v) s
  | _ => false
  end.

(** [a || b] *)
Definition or_else (a b : value) : value := if ToBoolean a then a else b.

(** ** The builder object *)

Module Dimensions.
Record t := mk { width : value; height : value }.
(** The object literal [{}]: reading a missing property gives
    [undefined]. *)
Definition empty : t := mk VUndefined VUndefined.
End Dimensions.

(** The fields of an [UnsplashPhoto] instance.  A field the constructor
    does not assign ([id], [keywords], [username], [category],
    [collection]) reads as [undefined] until a setter writes it. *)
Record UnsplashPhoto := {
  version : jsstring;
  url : jsstring;
  dimensions : Dimensions.t;
  scope : jsstring;
  randomizationInterval : value;
  id : value;
  keywords : value;
  username : value;
  category : value;
  collection : value
}.

Definition with_url (u : jsstring) (o : UnsplashPhoto) : UnsplashPhoto :=
  {| version := version o; url := u; dimensions := dimensions o;
     scope := scope o; randomizationInterval := randomizationInterval o;
     id := id o; keywords := keywords o; username := username o;
     category := category o; collection := collection o |}.

Definition with_dimensions (d : Dimensions.t) (o : UnsplashPhoto) :=
  {| version := version o; url := url o; dimensions := d;
     scope := scope o; randomizationInterval := randomizationInterval o;
     id := id o; keywords := keywords o; username := username o;
     category := category o; collection := collection o |}.

Definition with_scope (s : jsstring) (o : UnsplashPhoto) :=
  {| version := version o; url := url o; dimensions := dimensions o;
     scope := s; randomizationInterval := randomizationInterval o;
     id := id o; keywords := keywords o; username := username o;
     category := category o; collection := collection o |}.

Definition with_randomizationInterval (v : value) (o : UnsplashPhoto) :=
  {| version := version o; url := url o; dimensions := dimensions o;
     scope := scope o; randomizationInterval := v;
     id := id o; keywords := keywords o; username := username o;
     category := category o; collection := collection o |}.

Definition with_id (v : value) (o : UnsplashPhoto) :=
  {| version := version o; url := url o; dimensions := dimensions o;
     scope := scope o; randomizationInterval := randomizationInterval o;
     id := v; keywords := keywords o; username := username o;
     category := category o; collection := collection o |}.

Definition with_keywords (v : value) (o : UnsplashPhoto) :=
  {| version := version o; url := url o; dimensions := dimensions o;
     scope := scope o; randomizationInterval := randomizationInterval o;
     id := id o; keywords := v; username := username o;
     category := category o; collection := collection o |}.

Definition with_username (v : value) (o : UnsplashPhoto) :=
  {| version := version o; url := url o; dimensions := dimensions o;
     scope := scope o; randomizationInterval := randomizationInterval o;
     id := id o; keywords := keywords o; username := v;
     category := category o; collection := collection o |}.

Definition with_category (v : value) (o : UnsplashPhoto) :=
  {| version := version o; url := url o; dimensions := dimensions o;
     scope := scope o; randomizationInterval := randomizationInterval o;
     id := id o; keywords := keywords o; username := username o;
     category := v; collection := collection o |}.

Definition with_collection (v : value) (o : UnsplashPhoto) :=
  {| version := version o; url := url o; dimensions := dimensions o;
     scope := scope o; randomizationInterval := randomizationInterval o;
     id := id o; keywords := keywords o; username := username o;
     category := category o; collection := v |}.

(** ** Method bodies: state and exceptions

    A method body runs on the receiver [this]; it completes normally with a
    result or throws, and in both cases leaves [this] as mutated so far. *)

Inductive exn : Type := TypeError | URIError.

Inductive completion (A : Type) : Type :=
| Normal (a : A)
| Throw (e : exn).
Arguments Throw {A} e.

Definition M (A : Type) : Type := UnsplashPhoto -> completion A * UnsplashPhoto.

Definition ret {A} (a : A) : M A := fun this => (Normal a, this).

Definition bind {A B} (m : M A) (k : A -> M B) : M B :=
  fun this =>
    match m this with
    | (Normal a, this') => k a this'
    | (Throw e, this') => (Throw e, this')
    end.

Definition throw {A} (e : exn) : M A := fun this => (Throw e, this).

(** Read a field of [this]. *)
Definition read {A} (f : UnsplashPhoto -> A) : M A :=
  fun this => (Normal (f this), this).

(** Assign a field of [this]. *)
Definition assign (f : UnsplashPhoto -> UnsplashPhoto) : M unit :=
  fun this => (Normal tt, f this).

Declare Scope js_scope.
Delimit Scope js_scope with js.
Notation "x <- m ;; k" := (bind m (fun x => k))
  (at level 61, m at next level, right associativity) : js_scope.
Notation "m ;; k" := (bind m (fun _ => k))
  (at level 61, right associativity) : js_scope.
Open Scope js_scope.

(** The value a call returns and the receiver after it. *)
Definition returned {A} (r : completion A * UnsplashPhoto) : completion A := fst r.
Definition receiver {A} (r : completion A * UnsplashPhoto) : UnsplashPhoto := snd r.

(** [this.url += s] *)
Definition append_url (s : jsstring) : M unit :=
  assign (fun this => with_url (url this ++ s) this).

(** [new UnsplashPhoto()] *)
Definition new_UnsplashPhoto : UnsplashPhoto :=
  {| version := lit "1.0.0";
     url := lit "https://source.unsplash.com";
     dimensions := Dimensions.empty;
     scope := lit "all";
     randomizationInterval := VStr (lit "perRequest");
     id := VUndefined; keywords := VUndefined; username := VUndefined;
     category := VUndefined; collection := VUndefined |}.

(** The methods of [UnsplashPhoto.prototype].  A setter returns [this]:
    it is modelled with result [unit], and a chain [a().b()] is [a ;; b]. *)
Module prototype.

Definition find (id : value) : M unit := assign (with_id id).

Definition width (width : value) : M unit :=
  assign (fun this =>
    with_dimensions
      (Dimensions.mk width (Dimensions.height (dimensions this))) this).

Definition height (height : value) : M unit :=
  assign (fun this =>
    with_dimensions
      (Dimensions.mk (Dimensions.width (dimensions this)) height) this).

(** A call [size(w)] passes [undefined] for [height]. *)
Definition size (width height : value) : M unit :=
  assign (with_dimensions (Dimensions.mk width (or_else height width))).

Definition randomize (interval : value) : M unit :=
  if eq_lit interval (lit "daily") || eq_lit interval (lit "weekly")
  then assign (with_randomizationInterval interval)
  else assign (with_randomizationInterval (VStr (lit "perRequest"))).

Definition featured : M unit := assign (with_scope (lit "featured")).

(** [keywords.forEach(function (keyword) {
       sanitizedKeywords.push(keyword.trim()) })], returning the array
    pushed to: an element without a [trim] method (anything but a string)
    throws. *)
Fixpoint forEach_trim (keywords : list value)
    (sanitizedKeywords : list jsstring) : M (list jsstring) :=
  match keywords with
  | [] => ret sanitizedKeywords
  | VStr keyword :: rest =>
      forEach_trim rest (sanitizedKeywords ++ [trim keyword])
  | _ :: _ => throw TypeError
  end.

(** [of]; the name is reserved in Rocq, hence the underscore. *)
Definition of_ (keywords' : value) : M unit :=
  tokens <- match keywords' with
            | VArr elems => ret elems
            | VStr s => ret (List.map VStr (split 44%N s))
            | _ => throw TypeError
            end ;;
  sanitizedKeywords <- forEach_trim tokens [] ;;
  assign (with_keywords (VStr (join (lit ",") sanitizedKeywords))) ;;
  joined <- read (fun this => ToString (keywords this)) ;;
  match encodeURI joined with
  | Some escaped => assign (with_keywords (VStr escaped))
  | None => throw URIError
  end.

Definition fromUser (username : value) : M unit :=
  assign (with_username username).

Definition fromCategory (category : value) : M unit :=
  assign (with_category category).

Definition fromCollection (collectionId : value) : M unit :=
  assign (with_collection collectionId).

Definition _hasDimensions : M bool :=
  read (fun this =>
    ToBoolean (Dimensions.width (dimensions this))
    && ToBoolean (Dimensions.height (dimensions this))).

Definition _appendDimensions : M jsstring :=
  has <- _hasDimensions ;;
  (if has : bool then
     w <- read (fun this => Dimensions.width (dimensions this)) ;;
     h <- read (fun this => Dimensions.height (dimensions this)) ;;
     append_url (lit "/" ++ ToString w ++ lit "x" ++ ToString h)
   else ret tt) ;;
  read url.

Definition _appendScope : M jsstring :=
  s <- read scope ;;
  (if str_eqb s (lit "featured") then append_url (lit "/featured")
   else ret tt) ;;
  read url.

Definition _appendKeywords : M jsstring :=
  k <- read keywords ;;
  (if ToBoolean k then append_url (lit "?" ++ ToString k) else ret tt) ;;
  read url.

Definition _appendRandomization (includeRandomPath : bool) : M jsstring :=
  r <- read randomizationInterval ;;
  (if includeRandomPath && eq_lit r (lit "perRequest") then
     append_url (lit "/random")
   else if eq_lit r (lit "daily") then append_url (lit "/daily")
   else if eq_lit r (lit "weekly") then append_url (lit "/weekly")
   else ret tt) ;;
  read url.

Definition fetch : M jsstring :=
  i <- read id ;;
  if ToBoolean i then
    append_url (lit "/" ++ ToString i) ;;
    _appendDimensions ;;
    read url
  else
    u <- read username ;;
    if ToBoolean u then
      append_url (lit "/user/" ++ ToString u) ;;
      _appendScope ;;
      _appendDimensions ;;
      _appendRandomization false ;;
      _appendKeywords ;;
      read url
    else
      c <- read category ;;
      if ToBoolean c then
        append_url (lit "/category/" ++ ToString c) ;;
        _appendScope ;;
        _appendDimensions ;;
        _appendRandomization false ;;
        _appendKeywords ;;
        read url
      else
        c <- read collection ;;
        if ToBoolean c then
          append_url (lit "/collection/" ++ ToString c) ;;
          _appendScope ;;
          _appendDimensions ;;
          _appendRandomization false ;;
          _appendKeywords ;;
          read url
        else
          _appendScope ;;
          _appendDimensions ;;
          _appendRandomization true ;;
          _appendKeywords ;;
          read url.

End prototype.

(** ** The output format

    The URL as the specification lays it out: the service root, then the
    segment of the selector that wins, then the optional scope, dimension,
    randomization and keyword segments. *)

Inductive selector : Type :=
| ById | ByUser | ByCategory | ByCollection | NoSelector.

(** A selector field counts as set when it is truthy. *)
Definition is_set (v : value) : bool := ToBoolean v.

(** First match wins, in the order [id], [username], [category],
    [collection]. *)
Definition first_selector (o : UnsplashPhoto) : selector :=
  if is_set (id o) then ById
  else if is_set (username o) then ByUser
  else if is_set (category o) then ByCategory
  else if is_set (collection o) then ByCollection
  else NoSelector.

Definition selector_segment (sel : selector) (o : UnsplashPhoto) : jsstring :=
  match sel with
  | ById => lit "/" ++ ToString (id o)
  | ByUser => lit "/user/" ++ ToString (username o)
  | ByCategory => lit "/category/" ++ ToString (category o)
  | ByCollection => lit "/collection/" ++ ToString (collection o)
  | NoSelector => []
  end.

Definition scope_segment (o : UnsplashPhoto) : jsstring :=
  if str_eqb (scope o) (lit "featured") then lit "/featured" else [].

Definition has_dimensions (o : UnsplashPhoto) : bool :=
  ToBoolean (Dimensions.width (dimensions o))
  && ToBoolean (Dimensions.height (dimensions o)).

Definition dimension_segment (o : UnsplashPhoto) : jsstring :=
  if has_dimensions o then
    lit "/" ++ ToString (Dimensions.width (dimensions o))
    ++ lit "x" ++ ToString (Dimensions.height (dimensions o))
  else [].

Definition randomization_segment (includeRandomPath : bool)
    (o : UnsplashPhoto) : jsstring :=
  if includeRandomPath && eq_lit (randomizationInterval o) (lit "perRequest")
  then lit "/random"
  else if eq_lit (randomizationInterval o) (lit "daily") then lit "/daily"
  else if eq_lit (randomizationInterval o) (lit "weekly") then lit "/weekly"
  else [].

Definition keyword_segment (o : UnsplashPhoto) : jsstring :=
  if ToBoolean (keywords o) then lit "?" ++ ToString (keywords o) else [].

(** What follows the selector segment in each branch. *)
Definition branch_tail (sel : selector) (o : UnsplashPhoto) : jsstring :=
  match sel with
  | ById => dimension_segment o
  | NoSelector =>
      scope_segment o ++ dimension_segment o
      ++ randomization_segment true o ++ keyword_segment o
  | _ =>
      scope_segment o ++ dimension_segment o
      ++ randomization_segment false o ++ keyword_segment o
  end.

Definition serialize (sel : selector) (o : UnsplashPhoto) : jsstring :=
  url o ++ selector_segment sel o ++ branch_tail sel o.

(** A call that completes normally with the URL [u], stored in [this.url]. *)
Definition yields (u : jsstring) (o : UnsplashPhoto)
    : completion jsstring * UnsplashPhoto :=
  (Normal u, with_url u o).

(** Substring test, the meaning of "the URL contains ...". *)
Fixpoint starts_with (p s : jsstring) : bool :=
  match p, s with
  | [], _ => true
  | _ :: _, [] => false
  | a :: p', b :: s' => N.eqb a b && starts_with p' s'
  end.

Fixpoint contains (p s : jsstring) : bool :=
  starts_with p s
  || match s with
     | [] => false
     | _ :: s' => contains p s'
     end.

Definition ends_with (p s : jsstring) : bool := starts_with (rev p) (rev s).

(** The public surface of the component, one constructor per call. *)
Inductive method : Type :=
| Find (id : value)
| Width (w : value)
| Height (h : value)
| Size (w h : value)
| Randomize (interval : value)
| Featured
| Of (keywords : value)
| FromUser (username : value)
| FromCategory (category : value)
| FromCollection (collectionId : value)
| Fetch.

Definition invoke (m : method) : M unit :=
  match m with
  | Find v => prototype.find v
  | Width v => prototype.width v
  | Height v => prototype.height v
  | Size w h => prototype.size w h
  | Randomize v => prototype.randomize v
  | Featured => prototype.featured
  | Of v => prototype.of_ v
  | FromUser v => prototype.fromUser v
  | FromCategory v => prototype.fromCategory v
  | FromCollection v => prototype.fromCollection v
  | Fetch => prototype.fetch ;; ret tt
  end.

(** *** Vocabulary of the properties *)

(** First match wins, as a relation: a selector is chosen when its field
    is set and no field before it in the order is. *)
Inductive chosen (o : UnsplashPhoto) : selector -> Prop :=
| chosen_id :
    is_set (id o) = true -> chosen o ById
| chosen_username :
    is_set (id o) = false -> is_set (username o) = true -> chosen o ByUser
| chosen_category :
    is_set (id o) = false -> is_set (username o) = false ->
    is_set (category o) = true -> chosen o ByCategory
| chosen_collection :
    is_set (id o) = false -> is_set (username o) = false ->
    is_set (category o) = false -> is_set (collection o) = true ->
    chosen o ByCollection
| chosen_none :
    is_set (id o) = false -> is_set (username o) = false ->
    is_set (category o) = false -> is_set (collection o) = false ->
    chosen o NoSelector.

(** The unit [d] occurs right after the unit [c] somewhere in [s]. *)
Fixpoint follows (c d : code_unit) (s : jsstring) : bool :=
  match s with
  | [] => false
  | x :: r =>
      match r with
      | [] => false
      | y :: _ => N.eqb x c && N.eqb y d || follows c d r
      end
  end.

(** The units a direct id lookup with integer arguments can append:
    digits, the sign, [/] and [x]. *)
Definition path_char (c : code_unit) : bool :=
  is_digit c || N.eqb c 45 || N.eqb c 47 || N.eqb c 120.

(** An integer every double holds exactly: it prints as its numeral. *)
Definition safe_integer (n : Z) : bool :=
  (Z.abs n <? 9007199254740992)%Z.

Definition safe_number (v : value) : bool :=
  match v with VNum n => safe_integer n | _ => false end.

(** A dimension as the data model has it: an integer, or not there. *)
Definition safe_number_or_unset (v : value) : bool :=
  match v with VNum n => safe_integer n | VUndefined => true | _ => false end.

(** A value all of whose numbers are safe integers. *)
Fixpoint safe_value (v : value) : bool :=
  match v with
  | VNum n => safe_integer n
  | VArr l =>
      (fix all_safe (l : list value) : bool :=
         match l with
         | [] => true
         | x :: r => safe_value x && all_safe r
         end) l
  | _ => true
  end.

(** The URL on either side of the dimension segment. *)
Definition before_dimensions (sel : selector) (o : UnsplashPhoto) : jsstring :=
  url o ++ selector_segment sel o
  ++ match sel with ById => [] | _ => scope_segment o end.

Definition after_dimensions (sel : selector) (o : UnsplashPhoto) : jsstring :=
  match sel with
  | ById => []
  | NoSelector => randomization_segment true o ++ keyword_segment o
  | _ => randomization_segment false o ++ keyword_segment o
  end.

(** No white space at the front of a string. *)
Definition clean_start (s : jsstring) : Prop :=
  match s with
  | [] => True
  | c :: _ => is_white_space c = false
  end.

(** The keyword string in the order the specification words it: trim each
    token, URI-escape each token, join the escaped tokens with commas.
    [None] when a token cannot be escaped. *)
Fixpoint escape_all (tokens : list jsstring) : option (list jsstring) :=
  match tokens with
  | [] => Some []
  | t :: r =>
      match encodeURI t, escape_all r with
      | Some e, Some es => Some (e :: es)
      | _, _ => None
      end
  end.

Definition keyword_string (tokens : list jsstring) : option jsstring :=
  option_map (join (lit ",")) (escape_all (List.map trim tokens)).

(** The value of an upper-case hexadecimal digit. *)
Definition hex_value (c : code_unit) : option N :=
  if is_digit c then Some (c - 48)%N
  else if ((65 <=? c) && (c <=? 70))%N then Some (c - 55)%N
  else None.

(** Reading an escaped string back: [%XY] is the octet with the
    hexadecimal numeral [XY], any other ASCII unit is its own octet. *)
Fixpoint percent_decode (s : jsstring) : option (list N) :=
  match s with
  | [] => Some []
  | c :: r =>
      if N.eqb c 37 then
        match r with
        | h :: l :: r' =>
            match hex_value h, hex_value l with
            | Some a, Some b =>
                option_map (cons (16 * a + b)%N) (percent_decode r')
            | _, _ => None
            end
        | _ => None
        end
      else if (c <? 128)%N then option_map (cons c) (percent_decode r)
      else None
  end.

(** The UTF-8 octets of a string, a surrogate pair counting as the one
    code point it stands for; nothing for an unpaired surrogate. *)
Fixpoint utf8_string (s : jsstring) : option (list N) :=
  match s with
  | [] => Some []
  | c :: r =>
      if is_low_surrogate c then None
      else if is_high_surrogate c then
        match r with
        | [] => None
        | d :: r' =>
            if is_low_surrogate d then
              option_map (app (utf8 (code_point c d))) (utf8_string r')
            else None
        end
      else option_map (app (utf8 c)) (utf8_string r)
  end.

(** A string of 16-bit units. *)
Definition well_formed_string (s : jsstring) : bool :=
  forallb (fun c => (c <? 65536)%N) s.

(** The tokens of a keyword argument: the elements of a list of strings,
    the comma-separated pieces of a string, nothing for anything else. *)
Fixpoint strings_of (l : list value) : option (list jsstring) :=
  match l with
  | [] => Some []
  | VStr s :: r => option_map (cons s) (strings_of r)
  | _ :: _ => None
  end.

Definition tokens_of (v : value) : option (list jsstring) :=
  match v with
  | VStr s => Some (split 44%N s)
  | VArr l => strings_of l
  | _ => None
  end.

(** A surrogate code unit that is not part of a high-low pair. *)
Fixpoint lone_surrogate (s : jsstring) : bool :=
  match s with
  | [] => false
  | c :: r =>
      if is_low_surrogate c then true
      else if is_high_surrogate c then
        match r with
        | [] => true
        | d :: r' => if is_low_surrogate d then lone_surrogate r' else true
        end
      else lone_surrogate r
  end.

(** When the keyword setter throws, and what. *)
Definition of_failure (v : value) : option exn :=
  match tokens_of v with
  | None => Some TypeError
  | Some tokens =>
      if lone_surrogate (join (lit ",") (List.map trim tokens))
      then Some URIError else None
  end.

Definition is_string_or_list (v : value) : bool :=
  match v with VStr _ | VArr _ => true | _ => false end.

Definition is_string (v : value) : bool :=
  match v with VStr _ => true | _ => false end.

(** *** Vocabulary of the further properties *)

(** What one [fetch] appends to [this.url]. *)
Definition path (o : UnsplashPhoto) : jsstring :=
  selector_segment (first_selector o) o ++ branch_tail (first_selector o) o.

Definition is_fetch (m : method) : bool :=
  match m with Fetch => true | _ => false end.

(** The receiver after a series of calls made one statement at a time, a
    call that throws being caught by the caller; a chain that stops at its
    first exception is the series up to that call. *)
Fixpoint run_all (calls : list method) (o : UnsplashPhoto) : UnsplashPhoto :=
  match calls with
  | [] => o
  | m :: rest => run_all rest (receiver (invoke m o))
  end.

(** The properties of an instance, [dimensions] by its two entries. *)
Inductive field : Type :=
| FVersion | FUrl | FWidth | FHeight | FScope | FInterval
| FId | FKeywords | FUsername | FCategory | FCollection.

Definition field_code (f : field) : nat :=
  match f with
  | FVersion => 0 | FUrl => 1 | FWidth => 2 | FHeight => 3 | FScope => 4
  | FInterval => 5 | FId => 6 | FKeywords => 7 | FUsername => 8
  | FCategory => 9 | FCollection => 10
  end.

Definition field_eqb (a b : field) : bool :=
  Nat.eqb (field_code a) (field_code b).

Definition read_field (f : field) (o : UnsplashPhoto) : value :=
  match f with
  | FVersion => VStr (version o)
  | FUrl => VStr (url o)
  | FWidth => Dimensions.width (dimensions o)
  | FHeight => Dimensions.height (dimensions o)
  | FScope => VStr (scope o)
  | FInterval => randomizationInterval o
  | FId => id o
  | FKeywords => keywords o
  | FUsername => username o
  | FCategory => category o
  | FCollection => collection o
  end.

(** The properties a method assigns. *)
Definition writes (m : method) : list field :=
  match m with
  | Find _ => [FId]
  | Width _ => [FWidth]
  | Height _ => [FHeight]
  | Size _ _ => [FWidth; FHeight]
  | Randomize _ => [FInterval]
  | Featured => [FScope]
  | Of _ => [FKeywords]
  | FromUser _ => [FUsername]
  | FromCategory _ => [FCategory]
  | FromCollection _ => [FCollection]
  | Fetch => [FUrl]
  end.

Definition writes_field (f : field) (m : method) : bool :=
  existsb (field_eqb f) (writes m).

(** No property is assigned by both calls. *)
Definition independent (m m' : method) : bool :=
  forallb (fun f => negb (writes_field f m')) (writes m).

(** Every property [m] assigns is assigned by [m'] too. *)
Definition overwritten_by (m m' : method) : bool :=
  forallb (fun f => writes_field f m') (writes m).

(** A setter call that completes normally: any setter but a keyword setter
    whose argument makes it throw. *)
Definition completes (m : method) : bool :=
  match m with
  | Fetch => false
  | Of v => match of_failure v with None => true | Some _ => false end
  | _ => true
  end.

(** The state every series of calls keeps an instance in. *)
Definition well_formed (o : UnsplashPhoto) : Prop :=
  version o = lit "1.0.0"
  /\ (scope o = lit "all" \/ scope o = lit "featured")
  /\ eq_lit (randomizationInterval o) (lit "perRequest")
     || eq_lit (randomizationInterval o) (lit "daily")
     || eq_lit (randomizationInterval o) (lit "weekly") = true
  /\ (keywords o = VUndefined \/ exists k, keywords o = VStr k)
  /\ starts_with (lit "https://source.unsplash.com") (url o) = true.

(** A unit that needs no escaping in a URI, or the escape sign itself. *)
Definition uri_safe (c : code_unit) : bool := uri_unescaped c || N.eqb c 37.

Definition not_white_space (c : code_unit) : bool := negb (is_white_space c).

Definition not_comma (c : code_unit) : bool := negb (N.eqb c 44).

(** Only the branch without selector asks for the [/random] path. *)
Definition includes_random (sel : selector) : bool :=
  match sel with NoSelector => true | _ => false end.

(** * Properties *)

(** ** The model on concrete inputs *)

Example encodeURI_keeps_reserved :
  encodeURI (lit "a b,c/d?e#f") = Some (lit "a%20b,c/d?e#f").
Proof. reflexivity. Qed.

(** U+00E9, U+20AC and the pair for U+1F600 as UTF-8 octets. *)
Example encodeURI_utf8 :
  encodeURI [233; 8364; 55357; 56832]%N
  = Some (lit "%C3%A9%E2%82%AC%F0%9F%98%80").
Proof. reflexivity. Qed.

Example encodeURI_unpaired :
  encodeURI [55357]%N = None /\ encodeURI [56832; 55357]%N = None
  /\ encodeURI [55357; 44; 56832]%N = None.
Proof. repeat split. Qed.

Example split_commas :
  split 44%N (lit "a,,b,") = [lit "a"; []; lit "b"; []]
  /\ split 44%N [] = [[]].
Proof. split; reflexivity. Qed.

Example trim_both_ends :
  trim (lit "  cat ") = lit "cat" /\ trim (lit " a b ") = lit "a b"
  /\ trim (lit "   ") = [].
Proof. repeat split. Qed.

Example ToString_values :
  ToString (VNum 0) = lit "0" /\ ToString (VNum (-15)) = lit "-15"
  /\ ToString (VArr [VNum 1; VNull; VArr [VStr (lit "a"); VBool true]])
     = lit "1,,a,true".
Proof. repeat split. Qed.

(** Numbers beyond the integers a double holds exactly. *)
Example number_to_string_large :
  number_to_string (2 ^ 53 + 1) = lit "9007199254740992"
  /\ number_to_string (2 ^ 69) = lit "590295810358705700000"
  /\ number_to_string (10 ^ 21 - 1) = lit "1e+21"
  /\ number_to_string (10 ^ 23) = lit "1e+23"
  /\ number_to_string (- (123456789 * 10 ^ 20)) = lit "-1.23456789e+28"
  /\ number_to_string (2 ^ 1024) = lit "Infinity".
Proof. vm_compute. repeat split. Qed.

Example chain_user_weekly :
  returned ((prototype.of_ (VStr (lit " a b , c ")) ;;
             prototype.fromUser (VStr (lit "erondu")) ;;
             prototype.randomize (VStr (lit "weekly")) ;;
             prototype.size (VNum 1600) (VNum 900) ;;
             prototype.featured ;;
             prototype.fetch) new_UnsplashPhoto)
  = Normal
      (lit "https://source.unsplash.com/user/erondu/featured/1600x900/weekly?a%20b,c").
Proof. reflexivity. Qed.

(** A second [fetch] appends to the URL the first one stored. *)
Example fetch_twice :
  returned ((prototype.fetch ;; prototype.fetch) new_UnsplashPhoto)
  = Normal (lit "https://source.unsplash.com/random/random").
Proof. reflexivity. Qed.

(** ** Record updates and the monad *)

Lemma with_url_same (o : UnsplashPhoto) : with_url (url o) o = o.
Proof. destruct o; reflexivity. Qed.

Lemma bind_normal {A B} (m : M A) (k : A -> M B) o a o' :
  m o = (Normal a, o') -> bind m k o = k a o'.
Proof. intros H; unfold bind; rewrite H; reflexivity. Qed.

Lemma bind_yields {B} (m : M jsstring) (k : jsstring -> M B) o u :
  m o = yields u o -> bind m k o = k u (with_url u o).
Proof. intros H; apply bind_normal; exact H. Qed.

(** Run the next call of a chain with its specification. *)
Ltac step lemma := erewrite bind_yields by apply lemma.

(** The case of a helper whose test fails: nothing was appended. *)
Ltac nothing_appended :=
  cbn beta iota; rewrite app_nil_r, with_url_same; reflexivity.

(** ** The append helpers: each one appends its segment and nothing else *)

Section AppendHelpers.

Variable o : UnsplashPhoto.

Lemma _appendDimensions_spec :
  prototype._appendDimensions o = yields (url o ++ dimension_segment o) o.
Proof.
  unfold prototype._appendDimensions, prototype._hasDimensions,
    dimension_segment, has_dimensions, yields, bind, read, append_url,
    assign, ret.
  cbn beta iota.
  destruct (ToBoolean (Dimensions.width (dimensions o))
            && ToBoolean (Dimensions.height (dimensions o)));
    [reflexivity | nothing_appended].
Qed.

Lemma _appendScope_spec :
  prototype._appendScope o = yields (url o ++ scope_segment o) o.
Proof.
  unfold prototype._appendScope, scope_segment, yields, bind, read,
    append_url, assign, ret.
  cbn beta iota.
  destruct (str_eqb (scope o) (lit "featured"));
    [reflexivity | nothing_appended].
Qed.

Lemma _appendKeywords_spec :
  prototype._appendKeywords o = yields (url o ++ keyword_segment o) o.
Proof.
  unfold prototype._appendKeywords, keyword_segment, yields, bind, read,
    append_url, assign, ret.
  cbn beta iota.
  destruct (ToBoolean (keywords o)); [reflexivity | nothing_appended].
Qed.

Lemma _appendRandomization_spec (includeRandomPath : bool) :
  prototype._appendRandomization includeRandomPath o
  = yields (url o ++ randomization_segment includeRandomPath o) o.
Proof.
  unfold prototype._appendRandomization, randomization_segment, yields,
    bind, read, append_url, assign, ret.
  cbn beta iota.
  destruct (includeRandomPath
            && eq_lit (randomizationInterval o) (lit "perRequest"));
    [reflexivity|].
  destruct (eq_lit (randomizationInterval o) (lit "daily")); [reflexivity|].
  destruct (eq_lit (randomizationInterval o) (lit "weekly"));
    [reflexivity | nothing_appended].
Qed.

End AppendHelpers.

(** The four steps every branch but the id lookup ends with. *)
Lemma branch_steps_spec (b : bool) (o : UnsplashPhoto) :
  (prototype._appendScope ;; prototype._appendDimensions ;;
   prototype._appendRandomization b ;; prototype._appendKeywords ;;
   read url) o
  = yields (url o ++ scope_segment o ++ dimension_segment o
            ++ randomization_segment b o ++ keyword_segment o) o.
Proof.
  step _appendScope_spec. step _appendDimensions_spec.
  step _appendRandomization_spec. step _appendKeywords_spec.
  unfold read, yields. cbn [url with_url].
  change (dimension_segment (with_url _ o)) with (dimension_segment o).
  change (randomization_segment b (with_url _ _))
    with (randomization_segment b o).
  change (keyword_segment (with_url _ _)) with (keyword_segment o).
  rewrite <- !app_assoc. reflexivity.
Qed.

(** A branch that appends its selector segment and then runs the four
    steps. *)
Ltac selector_branch :=
  unfold bind at 1, append_url, assign;
  rewrite branch_steps_spec;
  unfold yields, serialize; cbn [url with_url selector_segment branch_tail];
  rewrite <- !app_assoc; reflexivity.

(** [fetch] refines the output format: it completes normally, returns the
    serialization of the first selector that is set, and stores it in
    [this.url]. *)
Lemma fetch_serialize (o : UnsplashPhoto) :
  prototype.fetch o = yields (serialize (first_selector o) o) o.
Proof.
  unfold prototype.fetch, first_selector, is_set.
  unfold bind at 1, read at 1.
  destruct (ToBoolean (id o)).
  { unfold bind at 1, append_url, assign.
    step _appendDimensions_spec.
    unfold read, yields, serialize.
    cbn [url with_url selector_segment branch_tail].
    change (dimension_segment (with_url _ o)) with (dimension_segment o).
    rewrite <- !app_assoc. reflexivity. }
  unfold bind at 1, read at 1.
  destruct (ToBoolean (username o)); [selector_branch|].
  unfold bind at 1, read at 1.
  destruct (ToBoolean (category o)); [selector_branch|].
  unfold bind at 1, read at 1.
  destruct (ToBoolean (collection o)); [selector_branch|].
  rewrite branch_steps_spec. reflexivity.
Qed.

Lemma fetch_returned (o : UnsplashPhoto) :
  returned (prototype.fetch o) = Normal (serialize (first_selector o) o).
Proof. rewrite fetch_serialize. reflexivity. Qed.

(** ** Strings *)

Lemma str_eqb_eq (a b : jsstring) : str_eqb a b = true <-> a = b.
Proof.
  revert b; induction a as [|x a IH]; intros [|y b]; simpl;
    try (split; [discriminate | discriminate]); try tauto.
  rewrite andb_true_iff, N.eqb_eq, IH.
  split; [intros [-> ->]; reflexivity | intros H; inversion H; auto].
Qed.

Lemma str_eqb_neq (a b : jsstring) : a <> b -> str_eqb a b = false.
Proof.
  intros H. destruct (str_eqb a b) eqn:E; [|reflexivity].
  apply str_eqb_eq in E. contradiction.
Qed.

Lemma starts_with_app (p b : jsstring) : starts_with p (p ++ b) = true.
Proof.
  induction p as [|x p IH]; simpl; [reflexivity|].
  rewrite N.eqb_refl, IH. reflexivity.
Qed.

Lemma starts_with_split (p s : jsstring) :
  starts_with p s = true -> exists b, s = p ++ b.
Proof.
  revert s; induction p as [|x p IH]; intros s H.
  - exists s. reflexivity.
  - destruct s as [|y s]; simpl in H; [discriminate|].
    apply andb_true_iff in H. destruct H as [Hxy Hp].
    apply N.eqb_eq in Hxy. subst y.
    destruct (IH _ Hp) as [b ->]. exists b. reflexivity.
Qed.

Lemma contains_here (p s : jsstring) :
  starts_with p s = true -> contains p s = true.
Proof. intros H. destruct s; simpl in *; rewrite H; reflexivity. Qed.

Lemma contains_app_r (p a s : jsstring) :
  contains p s = true -> contains p (a ++ s) = true.
Proof.
  intros H. induction a as [|x a IH]; simpl; [exact H|].
  rewrite IH. apply orb_true_r.
Qed.

(** [contains] is the substring relation. *)
Lemma contains_iff (p s : jsstring) :
  contains p s = true <-> exists a b, s = a ++ p ++ b.
Proof.
  split.
  - induction s as [|x s IH]; simpl; intros H.
    + rewrite orb_false_r in H. apply starts_with_split in H.
      destruct H as [b Hb]. exists [], b. exact Hb.
    + apply orb_true_iff in H. destruct H as [H|H].
      * apply starts_with_split in H. destruct H as [b Hb].
        exists [], b. exact Hb.
      * destruct (IH H) as (a & b & ->). exists (x :: a), b. reflexivity.
  - intros (a & b & ->). apply contains_app_r, contains_here, starts_with_app.
Qed.

Lemma contains_middle (p a b : jsstring) : contains p (a ++ p ++ b) = true.
Proof. apply contains_iff. exists a, b. reflexivity. Qed.

Lemma ends_with_app (p a : jsstring) : ends_with p (a ++ p) = true.
Proof. unfold ends_with. rewrite rev_app_distr. apply starts_with_app. Qed.

(** A pattern of two units or more only occurs where its first two units
    are next to each other. *)
Lemma contains_follows (c d : code_unit) (p s : jsstring) :
  contains (c :: d :: p) s = true -> follows c d s = true.
Proof.
  induction s as [|x s IH]; simpl; [discriminate|].
  intros H. apply orb_true_iff in H. destruct s as [|y s].
  - destruct H as [H|H].
    + rewrite andb_false_r in H. discriminate.
    + simpl in H. discriminate.
  - destruct H as [H|H].
    + apply andb_true_iff in H. destruct H as [Hc H].
      simpl in H. apply andb_true_iff in H. destruct H as [Hd _].
      rewrite N.eqb_sym in Hc. rewrite N.eqb_sym in Hd.
      rewrite Hc, Hd. reflexivity.
    + rewrite (IH H). apply orb_true_r.
Qed.

Lemma no_follows_no_contains (c d : code_unit) (p s : jsstring) :
  follows c d s = false -> contains (c :: d :: p) s = false.
Proof.
  intros H. destruct (contains (c :: d :: p) s) eqn:E; [|reflexivity].
  apply contains_follows in E. congruence.
Qed.

Lemma contains_unit (c : code_unit) (s : jsstring) :
  contains [c] s = existsb (N.eqb c) s.
Proof.
  induction s as [|x s IH]; simpl; [reflexivity|].
  rewrite IH, andb_true_r. reflexivity.
Qed.

Lemma follows_app_unit (c d x : code_unit) (a t : jsstring) :
  follows c d (a ++ x :: t) = follows c d (a ++ [x]) || follows c d (x :: t).
Proof.
  induction a as [|y a IH].
  - simpl. destruct t; reflexivity.
  - change ((y :: a) ++ x :: t) with (y :: (a ++ x :: t)).
    change ((y :: a) ++ [x]) with (y :: (a ++ [x])).
    destruct a as [|z a].
    + simpl. destruct t as [|z t]; simpl.
      * rewrite !orb_false_r. reflexivity.
      * rewrite orb_false_r. reflexivity.
    + simpl in *. rewrite IH. rewrite orb_assoc. reflexivity.
Qed.

Lemma follows_path_chars (c d : code_unit) (t : jsstring) :
  forallb path_char t = true -> path_char d = false -> follows c d t = false.
Proof.
  intros Ht Hd. induction t as [|x t IH]; [reflexivity|].
  simpl in Ht. apply andb_true_iff in Ht. destruct Ht as [_ Ht].
  destruct t as [|y t]; [reflexivity|].
  change (follows c d (x :: y :: t))
    with (N.eqb x c && N.eqb y d || follows c d (y :: t)).
  rewrite (IH Ht), orb_false_r.
  destruct (N.eqb_spec y d) as [->|_]; [|apply andb_false_r].
  simpl in Ht. rewrite Hd in Ht. discriminate.
Qed.

(** Decimal numerals only hold digits and a sign. *)
Lemma uint_digits (u : Decimal.uint) :
  forallb path_char (lit (NilEmpty.string_of_uint u)) = true.
Proof. induction u; simpl; auto. Qed.

Lemma number_to_string_safe (n : Z) :
  safe_integer n = true -> number_to_string n = decimal n.
Proof.
  unfold safe_integer, number_to_string. intros ->. reflexivity.
Qed.

Lemma number_to_string_path_chars (n : Z) :
  safe_integer n = true -> forallb path_char (number_to_string n) = true.
Proof.
  intros H. rewrite (number_to_string_safe _ H). unfold decimal.
  destruct (Z.to_int n) as [u|u]; simpl; apply uint_digits.
Qed.

Lemma first_selector_chosen (o : UnsplashPhoto) (sel : selector) :
  chosen o sel <-> first_selector o = sel.
Proof.
  unfold first_selector. split.
  - intros H; destruct H;
      repeat match goal with H : is_set _ = _ |- _ => rewrite H; clear H end;
      reflexivity.
  - intros <-.
    destruct (is_set (id o)) eqn:Hi; [apply chosen_id; exact Hi|].
    destruct (is_set (username o)) eqn:Hu;
      [apply chosen_username; assumption|].
    destruct (is_set (category o)) eqn:Hc;
      [apply chosen_category; assumption|].
    destruct (is_set (collection o)) eqn:Hl;
      [apply chosen_collection; assumption|].
    apply chosen_none; assumption.
Qed.

(** C1: [fetch] serializes through exactly one branch, the one of the first
    selector field that is set (truthy) in the order id, username, category,
    collection, whatever the later fields hold; in particular with id and
    username both set the result is the id branch: the root, [/<id>] and the
    dimension segment. *)
Theorem C1_selector_precedence (o : UnsplashPhoto) :
  (exists sel,
     chosen o sel
     /\ (forall sel', chosen o sel' -> sel' = sel)
     /\ prototype.fetch o = yields (serialize sel o) o)
  /\ (is_set (id o) = true -> is_set (username o) = true ->
      chosen o ById
      /\ returned (prototype.fetch o)
         = Normal (url o ++ lit "/" ++ ToString (id o) ++ dimension_segment o)).
Proof.
  split.
  - exists (first_selector o). split; [|split].
    + apply first_selector_chosen. reflexivity.
    + intros sel' H. apply first_selector_chosen in H. symmetry. exact H.
    + apply fetch_serialize.
  - intros Hid _. split; [apply chosen_id; exact Hid|].
    rewrite fetch_returned. unfold first_selector. rewrite Hid. reflexivity.
Qed.

Lemma C1_selector_precedence_witness :
  let o := receiver ((prototype.find (VNum 7) ;;
                      prototype.fromUser (VStr (lit "bob")) ;;
                      prototype.fromCategory (VStr (lit "nature")))
                     new_UnsplashPhoto) in
  is_set (id o) = true /\ is_set (username o) = true
  /\ returned (prototype.fetch o)
     = Normal (lit "https://source.unsplash.com/7").
Proof.
  intros o.
  destruct (C1_selector_precedence o) as [_ H].
  destruct (H eq_refl eq_refl) as [_ H'].
  split; [reflexivity|]. split; [reflexivity|].
  rewrite H'. reflexivity.
Defined.

(** ** Direct id lookup *)

Lemma dimension_segment_path_chars (o : UnsplashPhoto) :
  safe_number_or_unset (Dimensions.width (dimensions o)) = true ->
  safe_number_or_unset (Dimensions.height (dimensions o)) = true ->
  forallb path_char (dimension_segment o) = true.
Proof.
  unfold dimension_segment, has_dimensions.
  destruct (Dimensions.width (dimensions o)) as [| | | w | |];
    try discriminate; intros Hw;
    destruct (Dimensions.height (dimensions o)) as [| | | h | |];
    try discriminate; intros Hh; cbn [ToBoolean andb];
    try reflexivity; try (rewrite andb_false_r; reflexivity).
  destruct (negb (w =? 0)%Z && negb (h =? 0)%Z); [|reflexivity].
  cbn [safe_number_or_unset] in Hw, Hh.
  change (lit "/" ++ ToString (VNum w) ++ lit "x" ++ ToString (VNum h))
    with (47%N :: number_to_string w ++ 120%N :: number_to_string h).
  cbn [forallb]. rewrite forallb_app. cbn [forallb].
  rewrite (number_to_string_path_chars _ Hw),
    (number_to_string_path_chars _ Hh).
  reflexivity.
Qed.

Lemma root_then_path_chars_follows (d : code_unit) (t : jsstring) :
  forallb path_char t = true ->
  In d [102%N; 100%N; 119%N; 114%N] ->
  follows 47%N d (lit "https://source.unsplash.com" ++ t) = false.
Proof.
  intros Ht Hd.
  change (lit "https://source.unsplash.com" ++ t)
    with (lit "https://source.unsplash.co" ++ 109%N :: t).
  rewrite follows_app_unit.
  assert (Hp : path_char d = false)
    by (simpl in Hd; intuition (subst; reflexivity)).
  assert (Hr : follows 47%N d (lit "https://source.unsplash.co" ++ [109%N])
               = false)
    by (simpl in Hd; intuition (subst; reflexivity)).
  apply orb_false_iff. split; [exact Hr|].
  destruct t as [|y t]; [reflexivity|].
  exact (@follows_path_chars 47%N d (y :: t) Ht Hp).
Qed.

Lemma root_then_path_chars_no_query (t : jsstring) :
  forallb path_char t = true ->
  existsb (N.eqb 63%N) (lit "https://source.unsplash.com" ++ t) = false.
Proof.
  intros Ht. rewrite existsb_app.
  change (existsb (N.eqb 63%N) (lit "https://source.unsplash.com")) with false.
  cbn [orb]. induction t as [|x t IH]; [reflexivity|].
  cbn [existsb forallb] in *. apply andb_true_iff in Ht.
  destruct Ht as [Hx Ht]. rewrite (IH Ht), orb_false_r.
  destruct (N.eqb_spec 63%N x) as [<-|_]; [discriminate|reflexivity].
Qed.

(** C2, as stated, fails: the URL of an id lookup holds whatever the
    stored URL held before, so on a builder that was serialized once
    ([fetch(); find(5); fetch()]) it contains [/random]. *)
Lemma C2_counterexample :
  let o := receiver ((prototype.fetch ;; prototype.find (VNum 5))
                     new_UnsplashPhoto) in
  is_set (id o) = true
  /\ returned (prototype.fetch o)
     = Normal (lit "https://source.unsplash.com/random/5")
  /\ contains (lit "/random") (lit "https://source.unsplash.com/random/5")
     = true
  /\ ~ (forall o' : UnsplashPhoto,
          is_set (id o') = true ->
          forall u, returned (prototype.fetch o') = Normal u ->
                    contains (lit "/random") u = false).
Proof.
  intros o. split; [reflexivity|]. split; [reflexivity|].
  split; [reflexivity|]. intros H.
  specialize (H o eq_refl (lit "https://source.unsplash.com/random/5")
                eq_refl).
  vm_compute in H. discriminate H.
Qed.

(** C2, amended: when id is set, [fetch] appends [/<id>] and the dimension
    segment and nothing else, whatever scope, interval, keywords and the
    other selectors hold.  On a builder that was not serialized before
    (the stored URL is the service root), with an id that is an integer
    below [2^53] in size and dimensions that are such integers or missing,
    the URL holds none of [/featured], [/daily], [/weekly], [/random], and
    no [?]. *)
Theorem C2_id_lookup (o : UnsplashPhoto) (Hid : is_set (id o) = true) :
  prototype.fetch o
  = yields (url o ++ lit "/" ++ ToString (id o) ++ dimension_segment o) o
  /\ (url o = lit "https://source.unsplash.com" ->
      safe_number (id o) = true ->
      safe_number_or_unset (Dimensions.width (dimensions o)) = true ->
      safe_number_or_unset (Dimensions.height (dimensions o)) = true ->
      forall p,
        In p [lit "/featured"; lit "/daily"; lit "/weekly"; lit "/random";
              lit "?"] ->
        contains p
          (url o ++ lit "/" ++ ToString (id o) ++ dimension_segment o)
        = false).
Proof.
  split.
  - rewrite fetch_serialize. unfold first_selector. rewrite Hid.
    unfold serialize, selector_segment, branch_tail.
    rewrite <- !app_assoc. reflexivity.
  - intros Hurl Hnum Hw Hh p Hp. rewrite Hurl.
    assert (Ht : forallb path_char
                   (lit "/" ++ ToString (id o) ++ dimension_segment o) = true).
    { destruct (id o) as [| | | n | |]; try discriminate.
      cbn [safe_number] in Hnum.
      change (lit "/" ++ ToString (VNum n) ++ dimension_segment o)
        with (47%N :: number_to_string n ++ dimension_segment o).
      cbn [forallb]. rewrite forallb_app.
      rewrite (number_to_string_path_chars _ Hnum).
      apply dimension_segment_path_chars; assumption. }
    simpl in Hp.
    destruct Hp as [<-|[<-|[<-|[<-|[<-|[]]]]]];
      try (apply (@no_follows_no_contains 47%N);
           apply root_then_path_chars_follows; [exact Ht | simpl; auto]).
    change (lit "?") with [63%N]. rewrite contains_unit.
    apply root_then_path_chars_no_query, Ht.
Qed.

Lemma C2_id_lookup_witness :
  let o := receiver ((prototype.find (VNum 12) ;;
                      prototype.featured ;;
                      prototype.size (VNum 7) VUndefined ;;
                      prototype.randomize (VStr (lit "daily")) ;;
                      prototype.of_ (VStr (lit "cat")) ;;
                      prototype.fromUser (VStr (lit "bob")))
                     new_UnsplashPhoto) in
  is_set (id o) = true
  /\ returned (prototype.fetch o)
     = Normal (lit "https://source.unsplash.com/12/7x7")
  /\ contains (lit "/featured") (lit "https://source.unsplash.com/12/7x7")
     = false.
Proof.
  intros o.
  destruct (C2_id_lookup o eq_refl) as [H1 H2].
  split; [reflexivity|]. split.
  - rewrite H1. reflexivity.
  - apply (H2 eq_refl eq_refl eq_refl eq_refl (lit "/featured")).
    left. reflexivity.
Defined.

(** ** The randomization segment *)

(** C3: what the randomization step appends depends on the branch.  Asked
    for the random path, as the branch without selector does, it appends
    [/random] under the interval [perRequest]; not asked, as the username,
    category and collection branches do, it appends nothing then.  So with
    no selector set and [perRequest] the URL [fetch] returns ends in
    [/random], before the keyword query string; in the three selector
    branches [fetch] appends the selector segment, scope, dimensions, then
    [/daily] or [/weekly] when that interval is set and no randomization
    segment otherwise, then the keyword query string. *)
Theorem C3_random_segment_by_branch (o : UnsplashPhoto) :
  (randomizationInterval o = VStr (lit "perRequest") ->
   prototype._appendRandomization true o = yields (url o ++ lit "/random") o
   /\ prototype._appendRandomization false o = yields (url o) o)
  /\ (first_selector o = NoSelector ->
      randomizationInterval o = VStr (lit "perRequest") ->
      returned (prototype.fetch o)
      = Normal ((url o ++ scope_segment o ++ dimension_segment o
                 ++ lit "/random") ++ keyword_segment o)
      /\ ends_with (lit "/random")
           (url o ++ scope_segment o ++ dimension_segment o ++ lit "/random")
         = true)
  /\ (forall sel,
        In sel [ByUser; ByCategory; ByCollection] ->
        first_selector o = sel ->
        returned (prototype.fetch o)
        = Normal (url o ++ selector_segment sel o ++ scope_segment o
                  ++ dimension_segment o
                  ++ (if eq_lit (randomizationInterval o) (lit "daily")
                      then lit "/daily"
                      else if eq_lit (randomizationInterval o) (lit "weekly")
                      then lit "/weekly" else [])
                  ++ keyword_segment o)
        /\ (randomizationInterval o = VStr (lit "perRequest") ->
            returned (prototype.fetch o)
            = Normal (url o ++ selector_segment sel o ++ scope_segment o
                      ++ dimension_segment o ++ keyword_segment o))).
Proof.
  split; [|split].
  - intros Hr. rewrite !_appendRandomization_spec.
    unfold randomization_segment. rewrite Hr. cbn [andb eq_lit].
    split; [reflexivity|].
    change (if str_eqb (lit "perRequest") (lit "daily")
            then lit "/daily"
            else if str_eqb (lit "perRequest") (lit "weekly")
                 then lit "/weekly" else [])
      with (@nil code_unit).
    rewrite app_nil_r. reflexivity.
  - intros Hs Hr. split.
    + rewrite fetch_returned, Hs.
      unfold serialize, selector_segment, branch_tail, randomization_segment.
      rewrite Hr. cbn [andb eq_lit]. rewrite <- !app_assoc. reflexivity.
    + rewrite !app_assoc. apply ends_with_app.
  - intros sel Hin.
    assert (Hb : branch_tail sel o
                 = scope_segment o ++ dimension_segment o
                   ++ randomization_segment false o ++ keyword_segment o)
      by (simpl in Hin; intuition (subst; reflexivity)).
    intros Hs. rewrite fetch_returned, Hs.
    unfold serialize. rewrite Hb. unfold randomization_segment.
    cbn [andb]. split; [reflexivity|].
    intros Hr. rewrite Hr. reflexivity.
Qed.

Lemma C3_random_segment_by_branch_witness :
  let o := receiver (prototype.fromUser (VStr (lit "bob")) new_UnsplashPhoto) in
  In ByUser [ByUser; ByCategory; ByCollection]
  /\ first_selector o = ByUser
  /\ randomizationInterval o = VStr (lit "perRequest")
  /\ returned (prototype.fetch o)
     = Normal (lit "https://source.unsplash.com/user/bob")
  /\ returned (prototype.fetch new_UnsplashPhoto)
     = Normal (lit "https://source.unsplash.com/random").
Proof.
  intros o.
  destruct (C3_random_segment_by_branch o) as (_ & _ & H).
  destruct (H ByUser (or_introl eq_refl) eq_refl) as [_ H'].
  destruct (C3_random_segment_by_branch new_UnsplashPhoto) as (_ & H0 & _).
  split; [left; reflexivity|]. split; [reflexivity|].
  split; [reflexivity|]. split.
  - rewrite (H' eq_refl). reflexivity.
  - destruct (H0 eq_refl eq_refl) as [H0' _]. rewrite H0'. reflexivity.
Defined.

(** ** Unrecognized randomization interval *)

(** C5: for a string other than [daily] and [weekly], [randomize] stores
    the default [perRequest], whatever interval was stored before: the
    interval read back is [perRequest] and a following [fetch] has
    [/random] in the branch without selector and no randomization segment
    in the selector branches.  On a builder whose interval is the default,
    and so on a fresh one, the call changes neither the URL [fetch]
    returns nor the builder; after [randomize("daily")] it brings the URL
    of the fresh builder back. *)
Theorem C5_unrecognized_interval_resets (s : jsstring) (o : UnsplashPhoto)
    (Hd : s <> lit "daily") (Hw : s <> lit "weekly") :
  prototype.randomize (VStr s) o
  = (Normal tt, with_randomizationInterval (VStr (lit "perRequest")) o)
  /\ randomizationInterval (receiver (prototype.randomize (VStr s) o))
     = VStr (lit "perRequest")
  /\ (is_set (id o) = false ->
      returned ((prototype.randomize (VStr s) ;; prototype.fetch) o)
      = Normal (url o ++ selector_segment (first_selector o) o
                ++ scope_segment o ++ dimension_segment o
                ++ (if includes_random (first_selector o)
                    then lit "/random" else [])
                ++ keyword_segment o))
  /\ (randomizationInterval o = VStr (lit "perRequest") ->
      (prototype.randomize (VStr s) ;; prototype.fetch) o
      = prototype.fetch o)
  /\ (prototype.randomize (VStr s) ;; prototype.fetch) new_UnsplashPhoto
     = prototype.fetch new_UnsplashPhoto
  /\ returned ((prototype.randomize (VStr (lit "daily")) ;;
                prototype.randomize (VStr s) ;;
                prototype.fetch) new_UnsplashPhoto)
     = Normal (lit "https://source.unsplash.com/random").
Proof.
  assert (H : forall o',
             prototype.randomize (VStr s) o'
             = (Normal tt,
                with_randomizationInterval (VStr (lit "perRequest")) o')).
  { intros o'. unfold prototype.randomize, eq_lit.
    rewrite (str_eqb_neq Hd), (str_eqb_neq Hw). reflexivity. }
  split; [apply H|]. split; [rewrite H; reflexivity|].
  split; [|split; [|split]].
  - intros Hid. erewrite bind_normal by apply H. rewrite fetch_returned.
    change (first_selector
              (with_randomizationInterval (VStr (lit "perRequest")) o))
      with (first_selector o).
    unfold serialize. f_equal. f_equal.
    unfold first_selector in *. rewrite Hid.
    destruct (is_set (username o)); [reflexivity|].
    destruct (is_set (category o)); [reflexivity|].
    destruct (is_set (collection o)); reflexivity.
  - intros Hr. erewrite bind_normal by apply H.
    replace (with_randomizationInterval (VStr (lit "perRequest")) o) with o;
      [reflexivity|].
    rewrite <- Hr. destruct o; reflexivity.
  - erewrite bind_normal by apply H. reflexivity.
  - unfold bind at 1. cbn [prototype.randomize eq_lit str_eqb].
    change (prototype.randomize (VStr (lit "daily")) new_UnsplashPhoto)
      with (Normal tt,
            with_randomizationInterval (VStr (lit "daily")) new_UnsplashPhoto).
    cbv iota beta. erewrite bind_normal by apply H. reflexivity.
Qed.

Lemma C5_unrecognized_interval_resets_witness :
  let o := receiver (prototype.randomize (VStr (lit "weekly"))
                       new_UnsplashPhoto) in
  lit "monthly" <> lit "daily" /\ lit "monthly" <> lit "weekly"
  /\ randomizationInterval o = VStr (lit "weekly")
  /\ returned (prototype.fetch o)
     = Normal (lit "https://source.unsplash.com/weekly")
  /\ randomizationInterval
       (receiver (prototype.randomize (VStr (lit "monthly")) o))
     = VStr (lit "perRequest")
  /\ returned ((prototype.randomize (VStr (lit "monthly")) ;; prototype.fetch)
                 o)
     = returned (prototype.fetch new_UnsplashPhoto).
Proof.
  intros o.
  assert (Hd : lit "monthly" <> lit "daily") by discriminate.
  assert (Hw : lit "monthly" <> lit "weekly") by discriminate.
  destruct (C5_unrecognized_interval_resets o Hd Hw)
    as (_ & H1 & H2 & _).
  split; [exact Hd|]. split; [exact Hw|].
  split; [reflexivity|]. split; [reflexivity|].
  split; [exact H1|]. rewrite (H2 eq_refl). reflexivity.
Defined.

(** ** Dimensions *)

Lemma first_selector_with_dimensions (d : Dimensions.t) (o : UnsplashPhoto) :
  first_selector (with_dimensions d o) = first_selector o.
Proof. reflexivity. Qed.

Lemma serialize_around_dimensions (sel : selector) (o : UnsplashPhoto) :
  serialize sel o
  = before_dimensions sel o ++ dimension_segment o ++ after_dimensions sel o.
Proof.
  unfold serialize, before_dimensions, after_dimensions, branch_tail.
  destruct sel; rewrite <- ?app_assoc; rewrite ?app_nil_r; reflexivity.
Qed.

(** C6: the URL is what precedes the dimension segment, the segment, and
    what follows it; neither side reads the dimensions.  The segment is
    [/<w>x<h>] when both width and height are truthy and empty otherwise: a
    zero, missing or otherwise falsy width or height gives the URL of a
    builder without dimensions, and so does a width or a height set alone
    through its own setter. *)
Theorem C6_dimension_segment_needs_both (o : UnsplashPhoto) :
  let w := Dimensions.width (dimensions o) in
  let h := Dimensions.height (dimensions o) in
  let sel := first_selector o in
  returned (prototype.fetch o)
  = Normal (before_dimensions sel o
            ++ (if ToBoolean w && ToBoolean h
                then lit "/" ++ ToString w ++ lit "x" ++ ToString h
                else [])
            ++ after_dimensions sel o)
  /\ (forall d, first_selector (with_dimensions d o) = sel
                /\ before_dimensions sel (with_dimensions d o)
                   = before_dimensions sel o
                /\ after_dimensions sel (with_dimensions d o)
                   = after_dimensions sel o)
  /\ (ToBoolean w && ToBoolean h = false ->
      returned (prototype.fetch o)
      = Normal (before_dimensions sel o ++ after_dimensions sel o)
      /\ returned (prototype.fetch o)
         = returned (prototype.fetch (with_dimensions Dimensions.empty o)))
  /\ (dimensions o = Dimensions.empty ->
      forall v,
        returned ((prototype.width v ;; prototype.fetch) o)
        = returned (prototype.fetch o)
        /\ returned ((prototype.height v ;; prototype.fetch) o)
           = returned (prototype.fetch o)).
Proof.
  intros w h sel. split; [|split; [|split]].
  - rewrite fetch_returned, serialize_around_dimensions. reflexivity.
  - intros d. repeat split; destruct sel; reflexivity.
  - intros Hf. rewrite !fetch_returned, !serialize_around_dimensions.
    rewrite first_selector_with_dimensions. fold sel.
    unfold dimension_segment, has_dimensions. fold w h. rewrite Hf.
    split; [reflexivity|]. destruct sel; reflexivity.
  - intros He v.
    unfold bind, prototype.width, prototype.height, assign.
    rewrite !fetch_returned, !first_selector_with_dimensions,
      !serialize_around_dimensions.
    fold sel. unfold dimension_segment, has_dimensions. rewrite He.
    cbn [dimensions with_dimensions Dimensions.width Dimensions.height
         Dimensions.empty ToBoolean andb].
    rewrite andb_false_r. split; destruct sel; reflexivity.
Qed.

Lemma C6_dimension_segment_needs_both_witness :
  let o := receiver ((prototype.width (VNum 300) ;;
                      prototype.height (VNum 0)) new_UnsplashPhoto) in
  ToBoolean (Dimensions.width (dimensions o))
  && ToBoolean (Dimensions.height (dimensions o)) = false
  /\ returned (prototype.fetch o)
     = Normal (lit "https://source.unsplash.com/random").
Proof.
  intros o.
  destruct (C6_dimension_segment_needs_both o) as (_ & _ & H & _).
  destruct (H eq_refl) as [H' _].
  split; [reflexivity|]. rewrite H'. reflexivity.
Defined.

(** C7: a fresh query, then [featured()], [size(200, 200)] and [fetch()],
    returns the service root followed by [/featured/200x200/random]. *)
Theorem C7_featured_200x200 :
  returned ((prototype.featured ;;
             prototype.size (VNum 200) (VNum 200) ;;
             prototype.fetch) new_UnsplashPhoto)
  = Normal (lit "https://source.unsplash.com/featured/200x200/random")
  /\ lit "https://source.unsplash.com/featured/200x200/random"
     = url new_UnsplashPhoto ++ lit "/featured/200x200/random".
Proof. split; reflexivity. Qed.

(** C9: for a positive integer [w] (one a JavaScript number holds
    exactly: below [2^53]), [size(w)] with the height left out stores
    width [w] and height [w]; on a query without selector the URL [fetch]
    then returns has the segment [/<w>x<w>], [<w>] the decimal numeral of
    [w], between scope and randomization, so it contains it. *)
Theorem C9_size_square (w : Z) (o : UnsplashPhoto)
    (Hw : (0 < w)%Z) (Hs : (w < 2 ^ 53)%Z) :
  prototype.size (VNum w) VUndefined o
  = (Normal tt, with_dimensions (Dimensions.mk (VNum w) (VNum w)) o)
  /\ Dimensions.width
       (dimensions (receiver (prototype.size (VNum w) VUndefined o)))
     = VNum w
  /\ Dimensions.height
       (dimensions (receiver (prototype.size (VNum w) VUndefined o)))
     = VNum w
  /\ number_to_string w = decimal w
  /\ (first_selector o = NoSelector ->
      returned ((prototype.size (VNum w) VUndefined ;; prototype.fetch) o)
      = Normal (url o ++ scope_segment o
                ++ (lit "/" ++ decimal w ++ lit "x" ++ decimal w)
                ++ randomization_segment true o ++ keyword_segment o)
      /\ contains (lit "/" ++ decimal w ++ lit "x" ++ decimal w)
           (url o ++ scope_segment o
            ++ (lit "/" ++ decimal w ++ lit "x" ++ decimal w)
            ++ randomization_segment true o ++ keyword_segment o)
         = true).
Proof.
  assert (Hn : number_to_string w = decimal w).
  { apply number_to_string_safe. unfold safe_integer.
    apply Z.ltb_lt. change (2 ^ 53)%Z with 9007199254740992%Z in Hs. lia. }
  split; [reflexivity|]. split; [reflexivity|]. split; [reflexivity|].
  split; [exact Hn|]. intros Hsel. split.
  - unfold bind, prototype.size, assign, or_else. cbn [ToBoolean].
    rewrite fetch_returned, first_selector_with_dimensions, Hsel.
    unfold serialize, selector_segment, branch_tail, dimension_segment,
      has_dimensions.
    cbn [dimensions with_dimensions Dimensions.width Dimensions.height
         ToBoolean ToString].
    replace (w =? 0)%Z with false by (symmetry; apply Z.eqb_neq; lia).
    rewrite Hn. reflexivity.
  - rewrite (app_assoc (url o)). apply contains_middle.
Qed.

Lemma C9_size_square_witness :
  (0 < 300)%Z /\ (300 < 2 ^ 53)%Z
  /\ returned ((prototype.size (VNum 300) VUndefined ;; prototype.fetch)
                 new_UnsplashPhoto)
     = Normal (lit "https://source.unsplash.com/300x300/random").
Proof.
  destruct (@C9_size_square 300 new_UnsplashPhoto eq_refl eq_refl)
    as (_ & _ & _ & _ & H).
  destruct (H eq_refl) as [H' _].
  split; [reflexivity|]. split; [reflexivity|]. rewrite H'. reflexivity.
Defined.

(** ** Falsy selector values *)

Lemma serialize_unset_selector (o o' : UnsplashPhoto) :
  first_selector o' = first_selector o ->
  url o' = url o -> dimensions o' = dimensions o -> scope o' = scope o ->
  randomizationInterval o' = randomizationInterval o ->
  keywords o' = keywords o ->
  selector_segment (first_selector o) o'
  = selector_segment (first_selector o) o ->
  returned (prototype.fetch o') = returned (prototype.fetch o).
Proof.
  intros Hs Hu Hd Hsc Hr Hk Hseg. rewrite !fetch_returned, Hs.
  unfold serialize. rewrite Hseg, Hu. f_equal. f_equal. f_equal.
  unfold branch_tail, scope_segment, dimension_segment, has_dimensions,
    randomization_segment, keyword_segment.
  rewrite Hd, Hsc, Hr, Hk. reflexivity.
Qed.

(** C10: a falsy selector value counts as unset.  With a falsy id
    ([find(0)]), [fetch] returns what it returns when id was never
    assigned, so the username, category or collection branch, or the
    no-selector branch with its [/random], is taken; the same holds for a
    falsy (empty string) username, category or collection. *)
Theorem C10_falsy_selector_unset (o : UnsplashPhoto) :
  (is_set (id o) = false ->
   returned (prototype.fetch o)
   = returned (prototype.fetch (with_id VUndefined o)))
  /\ (is_set (username o) = false ->
      returned (prototype.fetch o)
      = returned (prototype.fetch (with_username VUndefined o)))
  /\ (is_set (category o) = false ->
      returned (prototype.fetch o)
      = returned (prototype.fetch (with_category VUndefined o)))
  /\ (is_set (collection o) = false ->
      returned (prototype.fetch o)
      = returned (prototype.fetch (with_collection VUndefined o)))
  /\ is_set (VNum 0) = false /\ is_set (VStr []) = false
  /\ returned ((prototype.find (VNum 0) ;; prototype.fetch) new_UnsplashPhoto)
     = Normal (lit "https://source.unsplash.com/random")
  /\ returned ((prototype.find (VNum 0) ;;
                prototype.fromUser (VStr (lit "bob")) ;;
                prototype.fetch) new_UnsplashPhoto)
     = Normal (lit "https://source.unsplash.com/user/bob")
  /\ returned ((prototype.fromUser (VStr []) ;;
                prototype.fromCategory (VStr []) ;;
                prototype.fromCollection (VStr (lit "190727")) ;;
                prototype.fetch) new_UnsplashPhoto)
     = Normal (lit "https://source.unsplash.com/collection/190727").
Proof.
  repeat match goal with |- _ /\ _ => split end; try reflexivity;
    intros H; symmetry; apply serialize_unset_selector; try reflexivity;
    unfold first_selector, is_set in *; cbn [id username category collection
      with_id with_username with_category with_collection ToBoolean];
    rewrite ?H;
    repeat match goal with
           | |- context [if ToBoolean ?v then _ else _] =>
               destruct (ToBoolean v)
           end;
    try reflexivity; discriminate H.
Qed.

Lemma C10_falsy_selector_unset_witness :
  let o := receiver ((prototype.find (VNum 0) ;;
                      prototype.fromCategory (VStr (lit "nature")))
                     new_UnsplashPhoto) in
  is_set (id o) = false
  /\ returned (prototype.fetch o)
     = Normal (lit "https://source.unsplash.com/category/nature").
Proof.
  intros o.
  destruct (C10_falsy_selector_unset o) as (H & _).
  split; [reflexivity|]. rewrite (H eq_refl). reflexivity.
Defined.

(** ** [trim] *)

Lemma trim_start_spec (s : jsstring) :
  exists l, s = l ++ trim_start s
            /\ forallb is_white_space l = true
            /\ clean_start (trim_start s).
Proof.
  induction s as [|c s (l & Hs & Hl & Hc)].
  - exists []. repeat split.
  - cbn [trim_start]. destruct (is_white_space c) eqn:E.
    + exists (c :: l). cbn [app forallb]. rewrite E, Hl.
      repeat split; [f_equal; exact Hs | exact Hc].
    + exists []. repeat split. exact E.
Qed.

Lemma forallb_rev {A} (f : A -> bool) (l : list A) :
  forallb f l = true -> forallb f (rev l) = true.
Proof.
  rewrite !forallb_forall. intros H x Hx. apply H, in_rev, Hx.
Qed.

(** [trim] cuts white space, and only white space, off both ends. *)
Lemma trim_spec (s : jsstring) :
  exists l r, s = l ++ trim s ++ r
              /\ forallb is_white_space l = true
              /\ forallb is_white_space r = true
              /\ clean_start (trim s)
              /\ clean_start (rev (trim s)).
Proof.
  destruct (trim_start_spec s) as (l & Hs & Hl & Hc).
  destruct (trim_start_spec (rev (trim_start s))) as (r & Hx & Hr & Hc').
  assert (Hx' : trim_start s = trim s ++ rev r).
  { unfold trim, trim_end. rewrite <- rev_app_distr, <- Hx.
    symmetry. apply rev_involutive. }
  exists l, (rev r). repeat split.
  - rewrite <- Hx'. exact Hs.
  - exact Hl.
  - apply forallb_rev, Hr.
  - rewrite Hx' in Hc. destruct (trim s); [exact I | exact Hc].
  - unfold trim, trim_end. rewrite rev_involutive. exact Hc'.
Qed.

(** ** [encodeURI] *)

Lemma unescaped_below_128 (c : code_unit) :
  uri_unescaped c = true -> (c < 128)%N.
Proof.
  unfold uri_unescaped, is_alpha, is_digit. intros H.
  apply orb_true_iff in H. destruct H as [H|H]; [|apply N.eqb_eq in H; lia].
  apply orb_true_iff in H. destruct H as [H|H].
  apply orb_true_iff in H. destruct H as [H|H].
  - repeat (apply orb_true_iff in H; destruct H as [H|H]);
      apply andb_true_iff in H; destruct H as [_ H]; apply N.leb_le in H; lia.
  - apply existsb_exists in H. destruct H as (x & Hx & E).
    apply N.eqb_eq in E. subst x. vm_compute in Hx.
    intuition (subst; reflexivity).
  - apply existsb_exists in H. destruct H as (x & Hx & E).
    apply N.eqb_eq in E. subst x. vm_compute in Hx.
    intuition (subst; reflexivity).
Qed.

Lemma unescaped_not_surrogate (c : code_unit) :
  uri_unescaped c = true ->
  is_low_surrogate c = false /\ is_high_surrogate c = false.
Proof.
  intros H. apply unescaped_below_128 in H.
  unfold is_low_surrogate, is_high_surrogate.
  split; apply andb_false_iff; left; apply N.leb_gt; lia.
Qed.

Lemma encodeURI_cons (c : code_unit) (r : jsstring) :
  encodeURI (c :: r)
  = if uri_unescaped c then option_map (cons c) (encodeURI r)
    else if is_low_surrogate c then None
    else if negb (is_high_surrogate c) then
      option_map (app (escape_octets (utf8 c))) (encodeURI r)
    else
      match r with
      | [] => None
      | d :: r' =>
          if is_low_surrogate d then
            option_map (app (escape_octets (utf8 (code_point c d))))
                       (encodeURI r')
          else None
      end.
Proof. reflexivity. Qed.

(** [encodeURI] fails exactly on a string with an unpaired surrogate. *)
Lemma encodeURI_None_iff_aux (n : nat) (s : jsstring) :
  List.length s <= n -> (encodeURI s = None <-> lone_surrogate s = true).
Proof.
  revert s; induction n as [|n IH]; intros [|c r] Hlen;
    try (simpl in Hlen; lia);
    try (simpl; split; discriminate).
  rewrite encodeURI_cons. cbn [lone_surrogate].
  assert (Hr : encodeURI r = None <-> lone_surrogate r = true)
    by (apply IH; simpl in Hlen; lia).
  destruct (uri_unescaped c) eqn:Hu.
  - destruct (unescaped_not_surrogate c Hu) as [-> ->]. cbv iota.
    rewrite <- Hr. destruct (encodeURI r); simpl; intuition congruence.
  - destruct (is_low_surrogate c); [split; reflexivity|].
    destruct (is_high_surrogate c); cbn [negb].
    + destruct r as [|d r']; [split; reflexivity|].
      destruct (is_low_surrogate d); [|split; reflexivity].
      assert (Hr' : encodeURI r' = None <-> lone_surrogate r' = true)
        by (apply IH; simpl in Hlen; lia).
      rewrite <- Hr'. destruct (encodeURI r'); simpl; intuition congruence.
    + rewrite <- Hr. destruct (encodeURI r); simpl; intuition congruence.
Qed.

Lemma encodeURI_None_iff (s : jsstring) :
  encodeURI s = None <-> lone_surrogate s = true.
Proof. apply (@encodeURI_None_iff_aux (List.length s)). lia. Qed.

(** Escaping goes through a comma: both sides escape on their own. *)
Lemma encodeURI_app_comma_aux (n : nat) (a b : jsstring) :
  List.length a <= n ->
  encodeURI (a ++ 44%N :: b)
  = match encodeURI a, encodeURI b with
    | Some x, Some y => Some (x ++ 44%N :: y)
    | _, _ => None
    end.
Proof.
  revert a; induction n as [|n IH]; intros [|c r] Hlen;
    try (simpl in Hlen; lia);
    try (cbn [app]; rewrite encodeURI_cons;
         change (uri_unescaped 44%N) with true; cbn [encodeURI];
         destruct (encodeURI b); reflexivity).
  cbn [app]. rewrite !encodeURI_cons.
  assert (Hr : encodeURI (r ++ 44%N :: b)
               = match encodeURI r, encodeURI b with
                 | Some x, Some y => Some (x ++ 44%N :: y)
                 | _, _ => None
                 end)
    by (apply IH; simpl in Hlen; lia).
  destruct (uri_unescaped c).
  { rewrite Hr. destruct (encodeURI r), (encodeURI b); reflexivity. }
  destruct (is_low_surrogate c); [reflexivity|].
  destruct (is_high_surrogate c); cbn [negb].
  - destruct r as [|d r'].
    + cbn [app]. change (is_low_surrogate 44%N) with false. reflexivity.
    + cbn [app]. destruct (is_low_surrogate d); [|reflexivity].
      rewrite (IH r') by (simpl in Hlen; lia).
      destruct (encodeURI r'), (encodeURI b); cbn [option_map];
        rewrite ?app_assoc; reflexivity.
  - rewrite Hr. destruct (encodeURI r), (encodeURI b); cbn [option_map];
      rewrite ?app_assoc; reflexivity.
Qed.

Lemma encodeURI_app_comma (a b : jsstring) :
  encodeURI (a ++ 44%N :: b)
  = match encodeURI a, encodeURI b with
    | Some x, Some y => Some (x ++ 44%N :: y)
    | _, _ => None
    end.
Proof. apply (@encodeURI_app_comma_aux (List.length a)). lia. Qed.

(** Joining then escaping, as the code does, is escaping each token then
    joining, as the specification words it. *)
Lemma encodeURI_join (l : list jsstring) :
  encodeURI (join (lit ",") l) = option_map (join (lit ",")) (escape_all l).
Proof.
  induction l as [|x l IH]; [reflexivity|].
  destruct l as [|y l].
  - simpl. destruct (encodeURI x); reflexivity.
  - change (join (lit ",") (x :: y :: l))
      with (x ++ 44%N :: join (lit ",") (y :: l)).
    rewrite encodeURI_app_comma, IH.
    cbn [escape_all]. destruct (encodeURI x); [|reflexivity].
    destruct (encodeURI y); [|reflexivity].
    destruct (escape_all l); reflexivity.
Qed.

Lemma hex_digit_unescaped (d : N) : uri_unescaped (hex_digit d) = true.
Proof.
  unfold hex_digit.
  destruct (nth_in_or_default (N.to_nat d) (lit "0123456789ABCDEF") 48%N)
    as [H | ->]; [|reflexivity].
  assert (A : forallb uri_unescaped (lit "0123456789ABCDEF") = true)
    by reflexivity.
  rewrite forallb_forall in A. apply A, H.
Qed.

Lemma escape_octets_safe (l : list N) :
  forallb uri_safe (escape_octets l) = true.
Proof.
  induction l as [|x l IH]; [reflexivity|].
  unfold escape_octets in *. cbn [flat_map]. rewrite forallb_app, IH.
  unfold percent. cbn [forallb]. unfold uri_safe at 2 3.
  rewrite !hex_digit_unescaped. reflexivity.
Qed.

(** What [encodeURI] returns only holds units that stand for themselves
    in a URI, and the escape sign. *)
Lemma encodeURI_safe_aux (n : nat) (s e : jsstring) :
  List.length s <= n -> encodeURI s = Some e -> forallb uri_safe e = true.
Proof.
  revert s e; induction n as [|n IH]; intros [|c r] e Hlen;
    try (simpl in Hlen; lia);
    try (simpl; intros H; inversion H; reflexivity).
  rewrite encodeURI_cons.
  assert (IHr : forall e', encodeURI r = Some e' -> forallb uri_safe e' = true)
    by (intros e'; apply IH; simpl in Hlen; lia).
  destruct (uri_unescaped c) eqn:Hu.
  { destruct (encodeURI r) as [e'|]; [|discriminate].
    intros H. inversion H. cbn [forallb]. unfold uri_safe at 1.
    rewrite Hu, (IHr e' eq_refl). reflexivity. }
  destruct (is_low_surrogate c); [discriminate|].
  destruct (is_high_surrogate c); cbn [negb].
  - destruct r as [|d r']; [discriminate|].
    destruct (is_low_surrogate d); [|discriminate].
    destruct (encodeURI r') as [e'|] eqn:E; [|discriminate].
    intros H. inversion H. rewrite forallb_app, escape_octets_safe.
    apply (IH r' e'); [simpl in Hlen; lia | exact E].
  - destruct (encodeURI r) as [e'|]; [|discriminate].
    intros H. inversion H. rewrite forallb_app, escape_octets_safe.
    apply (IHr e' eq_refl).
Qed.

Lemma encodeURI_safe (s e : jsstring) :
  encodeURI s = Some e -> forallb uri_safe e = true.
Proof. apply (@encodeURI_safe_aux (List.length s)). lia. Qed.

(** *** Reading the escapes back *)

Lemma hex_value_hex_digit (d : N) :
  (d < 16)%N -> hex_value (hex_digit d) = Some d.
Proof.
  intros H. destruct d as [|p]; [reflexivity|].
  repeat (destruct p as [p|p|]; try reflexivity; try lia).
Qed.

Lemma octet_halves (o : N) :
  (o < 256)%N ->
  (N.shiftr o 4 < 16)%N /\ (N.land o 15 < 16)%N
  /\ (16 * N.shiftr o 4 + N.land o 15 = o)%N.
Proof.
  intros H. rewrite N.shiftr_div_pow2.
  change 15%N with (N.ones 4). rewrite N.land_ones.
  change (2 ^ 4)%N with 16%N.
  pose proof (N.div_mod o 16) as D. pose proof (N.mod_lt o 16) as M.
  assert (Q : (o / 16 < 16)%N) by (apply N.Div0.div_lt_upper_bound; lia).
  lia.
Qed.

Lemma percent_decode_percent (o : N) (r : jsstring) :
  (o < 256)%N ->
  percent_decode (percent o ++ r) = option_map (cons o) (percent_decode r).
Proof.
  intros H. destruct (@octet_halves o H) as (Hh & Hl & E).
  unfold percent. cbn [app percent_decode N.eqb Pos.eqb].
  rewrite (@hex_value_hex_digit _ Hh), (@hex_value_hex_digit _ Hl), E.
  reflexivity.
Qed.

Lemma percent_decode_escape_octets (l : list N) (r : jsstring) :
  Forall (fun o => (o < 256)%N) l ->
  percent_decode (escape_octets l ++ r)
  = option_map (app l) (percent_decode r).
Proof.
  induction 1 as [|o l Ho Hl IH].
  - simpl. destruct (percent_decode r); reflexivity.
  - unfold escape_octets in *. cbn [flat_map]. rewrite <- app_assoc.
    rewrite (@percent_decode_percent _ _ Ho), IH.
    destruct (percent_decode r); reflexivity.
Qed.

Lemma lor_below_256 (a b : N) :
  (a < 256)%N -> (b < 256)%N -> (N.lor a b < 256)%N.
Proof.
  intros Ha Hb.
  assert (L : forall x, (x < 256)%N -> (N.log2 x < 8)%N).
  { intros x Hx. destruct (N.eq_dec x 0) as [->|Hn]; [reflexivity|].
    apply N.log2_lt_pow2; [lia | exact Hx]. }
  destruct (N.eq_dec (N.lor a b) 0) as [->|Hn]; [reflexivity|].
  change 256%N with (2 ^ 8)%N. apply N.log2_lt_pow2; [lia|].
  rewrite N.log2_lor. apply N.max_lub_lt; apply L; assumption.
Qed.

Lemma low_six_bits (v : N) : (N.lor 128 (N.land v 63) < 256)%N.
Proof.
  apply lor_below_256; [reflexivity|].
  change 63%N with (N.ones 6). rewrite N.land_ones.
  pose proof (N.mod_lt v (2 ^ 6)) as M. change (2 ^ 6)%N with 64%N in *. lia.
Qed.

Lemma shiftr_below (v n k : N) :
  (v < k * 2 ^ n)%N -> (N.shiftr v n < k)%N.
Proof.
  intros H. rewrite N.shiftr_div_pow2.
  apply N.Div0.div_lt_upper_bound. lia.
Qed.

(** The UTF-8 octets of a code point are octets. *)
Lemma utf8_octets (v : N) :
  (v < 2097152)%N -> Forall (fun o => (o < 256)%N) (utf8 v).
Proof.
  intros H. unfold utf8.
  destruct (N.ltb_spec v 128); [repeat constructor; lia|].
  destruct (N.ltb_spec v 2048).
  { repeat constructor; [|apply low_six_bits].
    apply lor_below_256; [reflexivity|].
    assert (N.shiftr v 6 < 32)%N by (apply shiftr_below; simpl; lia). lia. }
  destruct (N.ltb_spec v 65536).
  { repeat constructor; try apply low_six_bits.
    apply lor_below_256; [reflexivity|].
    assert (N.shiftr v 12 < 16)%N by (apply shiftr_below; simpl; lia). lia. }
  repeat constructor; try apply low_six_bits.
  apply lor_below_256; [reflexivity|].
  assert (N.shiftr v 18 < 8)%N by (apply shiftr_below; simpl; lia). lia.
Qed.

(** What [encodeURI] returns reads back as the UTF-8 octets of its
    argument. *)
Lemma encodeURI_decodes_aux (n : nat) (s e : jsstring) :
  List.length s <= n -> well_formed_string s = true ->
  encodeURI s = Some e -> percent_decode e = utf8_string s.
Proof.
  revert s e; induction n as [|n IH]; intros [|c r] e Hlen Hwf;
    try (simpl in Hlen; lia);
    try (simpl; intros H; inversion H; reflexivity).
  unfold well_formed_string in Hwf. cbn [forallb] in Hwf.
  apply andb_true_iff in Hwf. destruct Hwf as [Hc Hr].
  apply N.ltb_lt in Hc.
  rewrite encodeURI_cons. cbn [utf8_string].
  assert (IHr : forall e', encodeURI r = Some e' ->
                           percent_decode e' = utf8_string r)
    by (intros e'; apply IH; [simpl in Hlen; lia | exact Hr]).
  destruct (uri_unescaped c) eqn:Hu.
  { destruct (unescaped_not_surrogate c Hu) as [-> ->].
    pose proof (unescaped_below_128 c Hu) as Hlt.
    destruct (encodeURI r) as [e'|]; [|discriminate].
    intros H. inversion H. cbn [percent_decode].
    destruct (N.eqb_spec c 37) as [->|_]; [discriminate Hu|].
    replace (c <? 128)%N with true by (symmetry; apply N.ltb_lt; exact Hlt).
    rewrite (IHr e' eq_refl). unfold utf8.
    replace (c <? 128)%N with true by (symmetry; apply N.ltb_lt; exact Hlt).
    destruct (utf8_string r); reflexivity. }
  destruct (is_low_surrogate c) eqn:Hlow; [discriminate|].
  destruct (is_high_surrogate c) eqn:Hhigh; cbn [negb].
  - destruct r as [|d r']; [discriminate|].
    destruct (is_low_surrogate d) eqn:Hd; [|discriminate].
    destruct (encodeURI r') as [e'|] eqn:E; [|discriminate].
    intros H. inversion H.
    rewrite percent_decode_escape_octets.
    + rewrite (IH r' e'); [reflexivity | simpl in Hlen; lia | | exact E].
      unfold well_formed_string in *. cbn [forallb] in Hr.
      apply andb_true_iff in Hr. apply Hr.
    + apply utf8_octets. unfold code_point.
      unfold is_high_surrogate in Hhigh. unfold is_low_surrogate in Hd.
      apply andb_true_iff in Hhigh. apply andb_true_iff in Hd.
      destruct Hhigh as [_ Hh]. destruct Hd as [_ Hd].
      apply N.leb_le in Hh. apply N.leb_le in Hd. lia.
  - destruct (encodeURI r) as [e'|]; [|discriminate].
    intros H. inversion H.
    rewrite percent_decode_escape_octets by (apply utf8_octets; lia).
    rewrite (IHr e' eq_refl). reflexivity.
Qed.

Lemma encodeURI_decodes (s e : jsstring) :
  well_formed_string s = true ->
  encodeURI s = Some e -> percent_decode e = utf8_string s.
Proof. apply (@encodeURI_decodes_aux (List.length s)). lia. Qed.

Lemma trim_keeps (P : code_unit -> bool) (s : jsstring) :
  forallb P s = true -> forallb P (trim s) = true.
Proof.
  destruct (trim_spec s) as (l & r & E & _). intros H.
  rewrite E, !forallb_app in H.
  apply andb_true_iff in H. destruct H as [_ H].
  apply andb_true_iff in H. apply H.
Qed.

Lemma join_keeps (P : code_unit -> bool) (sep : jsstring)
    (l : list jsstring) :
  forallb P sep = true -> forallb (forallb P) l = true ->
  forallb P (join sep l) = true.
Proof.
  intros Hsep. induction l as [|x l IH]; [reflexivity|].
  cbn [forallb]. intros H. apply andb_true_iff in H. destruct H as [Hx Hl].
  destruct l as [|y l]; [exact Hx|].
  change (join sep (x :: y :: l)) with (x ++ sep ++ join sep (y :: l)).
  rewrite !forallb_app, Hx, Hsep, (IH Hl). reflexivity.
Qed.

Lemma trimmed_tokens_well_formed (tokens : list jsstring) :
  forallb well_formed_string tokens = true ->
  well_formed_string (join (lit ",") (List.map trim tokens)) = true.
Proof.
  intros H. apply join_keeps; [reflexivity|].
  induction tokens as [|t ts IH]; [reflexivity|].
  cbn [forallb List.map] in *. apply andb_true_iff in H.
  destruct H as [Ht Hts]. rewrite (IH Hts), andb_true_r.
  apply trim_keeps, Ht.
Qed.

(** ** The keyword setter *)

Lemma strings_of_map_VStr (tokens : list jsstring) :
  strings_of (List.map VStr tokens) = Some tokens.
Proof.
  induction tokens as [|t r IH]; [reflexivity|].
  simpl. rewrite IH. reflexivity.
Qed.

Lemma forEach_trim_spec (l : list value) (acc : list jsstring)
    (o : UnsplashPhoto) :
  prototype.forEach_trim l acc o
  = match strings_of l with
    | Some tokens => (Normal (acc ++ List.map trim tokens), o)
    | None => (Throw TypeError, o)
    end.
Proof.
  revert acc; induction l as [|v r IH]; intros acc.
  - simpl. rewrite app_nil_r. reflexivity.
  - destruct v; try reflexivity.
    cbn [prototype.forEach_trim strings_of]. rewrite IH.
    destruct (strings_of r); [|reflexivity].
    cbn [option_map List.map]. rewrite <- app_assoc. reflexivity.
Qed.

(** The whole behaviour of [of]: a [TypeError] with [this] untouched when
    the argument has no tokens; otherwise the trimmed tokens are joined
    and stored, then escaped and stored again, or a [URIError] leaves the
    unescaped string behind. *)
Lemma of_spec (v : value) (o : UnsplashPhoto) :
  prototype.of_ v o
  = match tokens_of v with
    | None => (Throw TypeError, o)
    | Some tokens =>
        let joined := join (lit ",") (List.map trim tokens) in
        match encodeURI joined with
        | Some escaped => (Normal tt, with_keywords (VStr escaped) o)
        | None => (Throw URIError, with_keywords (VStr joined) o)
        end
    end.
Proof.
  unfold prototype.of_.
  destruct v as [| | b | n | s | l]; try reflexivity.
  - unfold bind at 1, ret. unfold bind at 1. rewrite forEach_trim_spec.
    cbn [tokens_of]. rewrite strings_of_map_VStr. cbn [app].
    unfold bind, assign, read. cbn [keywords with_keywords ToString].
    destruct (encodeURI _); reflexivity.
  - unfold bind at 1, ret. unfold bind at 1. rewrite forEach_trim_spec.
    cbn [tokens_of]. destruct (strings_of l) as [tokens|]; [|reflexivity].
    cbn [app]. unfold bind, assign, read. cbn [keywords with_keywords ToString].
    destruct (encodeURI _); reflexivity.
Qed.

Lemma fetch_after_keywords (k : jsstring) (o : UnsplashPhoto) :
  first_selector o = NoSelector -> k <> [] ->
  returned (prototype.fetch (with_keywords (VStr k) o))
  = Normal (url o ++ scope_segment o ++ dimension_segment o
            ++ randomization_segment true o ++ lit "?" ++ k).
Proof.
  intros Hs Hk. rewrite fetch_returned.
  change (first_selector (with_keywords (VStr k) o)) with (first_selector o).
  rewrite Hs. unfold serialize, selector_segment, branch_tail, keyword_segment.
  cbn [keywords with_keywords ToBoolean ToString app].
  destruct k; [contradiction|reflexivity].
Qed.

(** C4: [trim] cuts the white space off both ends of a token; on a list of
    strings the keyword setter stores the tokens trimmed, URI-escaped and
    joined with commas (and throws when a token cannot be escaped); a
    string is first split at its commas.  What is stored holds nothing
    but units a URI keeps and [%XY] escapes, and reads back, escape by
    escape, as the UTF-8 octets of the trimmed tokens joined with commas:
    [" red car ", "a<b>", "\u00E9"] stores [red%20car,a%3Cb%3E,%C3%A9].
    The list ["  cat ", "dog"] stores [cat,dog], and [fetch] on a query
    without selector then ends the URL with [?cat,dog]. *)
Theorem C4_keywords_trimmed_escaped_joined (o : UnsplashPhoto) :
  (forall t, exists l r,
     t = l ++ trim t ++ r
     /\ forallb is_white_space l = true /\ forallb is_white_space r = true
     /\ clean_start (trim t) /\ clean_start (rev (trim t)))
  /\ (forall tokens,
        prototype.of_ (VArr (List.map VStr tokens)) o
        = match keyword_string tokens with
          | Some k => (Normal tt, with_keywords (VStr k) o)
        | None =>
            (Throw URIError,
             with_keywords (VStr (join (lit ",") (List.map trim tokens))) o)
        end)
  /\ (forall s,
        prototype.of_ (VStr s) o
        = prototype.of_ (VArr (List.map VStr (split 44%N s))) o)
  /\ (forall tokens k,
        forallb well_formed_string tokens = true ->
        keyword_string tokens = Some k ->
        forallb uri_safe k = true
        /\ percent_decode k
           = utf8_string (join (lit ",") (List.map trim tokens)))
  /\ prototype.of_
       (VArr [VStr (lit " red car "); VStr (lit "a<b>"); VStr [233%N]]) o
     = (Normal tt, with_keywords (VStr (lit "red%20car,a%3Cb%3E,%C3%A9")) o)
  /\ prototype.of_ (VArr [VStr (lit "  cat "); VStr (lit "dog")]) o
     = (Normal tt, with_keywords (VStr (lit "cat,dog")) o)
  /\ (first_selector o = NoSelector ->
      returned ((prototype.of_ (VArr [VStr (lit "  cat "); VStr (lit "dog")]) ;;
                 prototype.fetch) o)
      = Normal (url o ++ scope_segment o ++ dimension_segment o
                ++ randomization_segment true o ++ lit "?cat,dog"))
  /\ returned ((prototype.of_ (VArr [VStr (lit "  cat "); VStr (lit "dog")]) ;;
                prototype.fetch) new_UnsplashPhoto)
     = Normal (lit "https://source.unsplash.com/random?cat,dog").
Proof.
  split; [|split; [|split; [|split; [|split; [|split; [|split]]]]]].
  - apply trim_spec.
  - intros tokens. rewrite of_spec. cbn [tokens_of].
    rewrite strings_of_map_VStr. cbv zeta. rewrite encodeURI_join.
    unfold keyword_string.
    destruct (escape_all (List.map trim tokens)); reflexivity.
  - intros s. rewrite !of_spec. cbn [tokens_of].
    rewrite strings_of_map_VStr. reflexivity.
  - intros tokens k Hwf Hk. unfold keyword_string in Hk.
    rewrite <- encodeURI_join in Hk. split.
    + apply (encodeURI_safe _ Hk).
    + apply encodeURI_decodes;
        [apply trimmed_tokens_well_formed; exact Hwf | exact Hk].
  - rewrite of_spec. reflexivity.
  - rewrite of_spec. reflexivity.
  - intros Hs.
    assert (E : prototype.of_ (VArr [VStr (lit "  cat "); VStr (lit "dog")]) o
                = (Normal tt, with_keywords (VStr (lit "cat,dog")) o))
      by (rewrite of_spec; reflexivity).
    erewrite bind_normal by exact E.
    apply fetch_after_keywords; [exact Hs | discriminate].
  - reflexivity.
Qed.

Lemma C4_keywords_trimmed_escaped_joined_witness :
  let o := receiver ((prototype.featured ;; prototype.size (VNum 4) (VNum 3))
                     new_UnsplashPhoto) in
  first_selector o = NoSelector
  /\ returned ((prototype.of_ (VArr [VStr (lit "  cat "); VStr (lit "dog")]) ;;
                prototype.fetch) o)
     = Normal (lit "https://source.unsplash.com/featured/4x3/random?cat,dog")
  /\ forallb well_formed_string [lit " a b"; [8364%N]] = true
  /\ keyword_string [lit " a b"; [8364%N]] = Some (lit "a%20b,%E2%82%AC")
  /\ percent_decode (lit "a%20b,%E2%82%AC")
     = Some [97; 32; 98; 44; 226; 130; 172]%N.
Proof.
  intros o.
  destruct (C4_keywords_trimmed_escaped_joined o)
    as (_ & _ & _ & Hp & _ & _ & H & _).
  split; [reflexivity|]. split; [rewrite (H eq_refl); reflexivity|].
  split; [reflexivity|]. split; [reflexivity|].
  destruct (Hp [lit " a b"; [8364%N]] (lit "a%20b,%E2%82%AC")
              eq_refl eq_refl) as [_ Hd].
  rewrite Hd. reflexivity.
Defined.

(** ** Exceptions *)

Lemma of_throws_iff (v : value) (o : UnsplashPhoto) (e : exn) :
  returned (prototype.of_ v o) = Throw e <-> of_failure v = Some e.
Proof.
  rewrite of_spec. unfold of_failure.
  destruct (tokens_of v) as [tokens|].
  - cbv zeta.
    destruct (encodeURI (join (lit ",") (List.map trim tokens))) as [k|] eqn:E.
    + destruct (lone_surrogate _) eqn:L.
      * apply encodeURI_None_iff in L. congruence.
      * simpl. split; discriminate.
    + apply encodeURI_None_iff in E. rewrite E. simpl.
      split; intros H; inversion H; reflexivity.
  - simpl. split; intros H; inversion H; reflexivity.
Qed.

Lemma strings_of_None_iff (l : list value) :
  strings_of l = None <-> exists x, In x l /\ is_string x = false.
Proof.
  induction l as [|v r IH].
  - split; [discriminate | intros (x & [] & _)].
  - destruct v as [| | b | n | s | l'];
      try (split; [intros _; eexists; split; [left; reflexivity|reflexivity]
                  | reflexivity]).
    cbn [strings_of]. split.
    + intros H. destruct (strings_of r); [discriminate|].
      destruct (proj1 IH eq_refl) as (x & Hx & Hs).
      exists x. split; [right; exact Hx | exact Hs].
    + intros (x & [<-|Hx] & Hs); [discriminate|].
      rewrite (proj2 IH (ex_intro _ x (conj Hx Hs))). reflexivity.
Qed.

Lemma of_failure_TypeError_iff (v : value) :
  of_failure v = Some TypeError
  <-> is_string_or_list v = false
      \/ exists l x, v = VArr l /\ In x l /\ is_string x = false.
Proof.
  unfold of_failure. destruct v as [| | b | n | s | l]; cbn [tokens_of];
    try (split; [intros _; left; reflexivity | reflexivity]).
  - split.
    + destruct (lone_surrogate _); discriminate.
    + intros [H|(l & x & H & _)]; discriminate.
  - split.
    + destruct (strings_of l) as [tokens|] eqn:E.
      * destruct (lone_surrogate _); discriminate.
      * intros _. right. apply strings_of_None_iff in E.
        destruct E as (x & Hx & Hs). exists l, x. auto.
    + intros [H|(l' & x & H & Hx & Hs)]; [discriminate|].
      inversion H. subst l'.
      rewrite (proj2 (strings_of_None_iff l) (ex_intro _ x (conj Hx Hs))).
      reflexivity.
Qed.

Lemma of_failure_URIError_iff (v : value) :
  of_failure v = Some URIError
  <-> exists tokens,
        tokens_of v = Some tokens
        /\ lone_surrogate (join (lit ",") (List.map trim tokens)) = true.
Proof.
  unfold of_failure. destruct (tokens_of v) as [tokens|].
  - split.
    + destruct (lone_surrogate _) eqn:E; [|discriminate].
      intros _. exists tokens. auto.
    + intros (t & H & L). inversion H. subst t. rewrite L. reflexivity.
  - split; [discriminate | intros (t & H & _); discriminate].
Qed.

(** C8, as stated, fails: the keyword setter also throws when it is
    passed a string, namely one that holds an unpaired surrogate, on
    which [encodeURI] throws a URI error. *)
Lemma C8_counterexample :
  is_string_or_list (VStr [55296%N]) = true
  /\ returned (invoke (Of (VStr [55296%N])) new_UnsplashPhoto) = Throw URIError
  /\ ~ (forall m o e,
          returned (invoke m o) = Throw e ->
          exists v, m = Of v /\ is_string_or_list v = false).
Proof.
  split; [reflexivity|]. split; [reflexivity|].
  intros H.
  destruct (H (Of (VStr [55296%N])) new_UnsplashPhoto URIError eq_refl)
    as (v & Hm & Hv).
  inversion Hm. subst v. discriminate Hv.
Qed.

(** C8, amended: with arguments that are [undefined], [null], booleans,
    numbers, strings or arrays of these, the keyword setter is the only
    operation that can throw.  It throws a type error exactly when its
    argument is neither a string nor a list, or is a list with an element
    that is not a string; it throws a URI error exactly when the trimmed
    tokens, joined with commas, hold an unpaired surrogate.  Every other
    call with such arguments completes normally on every builder state;
    so does [fetch]. *)
Theorem C8_only_keyword_setter_throws :
  (forall m o e,
     returned (invoke m o) = Throw e ->
     exists v, m = Of v /\ of_failure v = Some e)
  /\ (forall v o e,
        of_failure v = Some e -> returned (invoke (Of v) o) = Throw e)
  /\ (forall v,
        of_failure v = Some TypeError
        <-> is_string_or_list v = false
            \/ exists l x, v = VArr l /\ In x l /\ is_string x = false)
  /\ (forall v,
        of_failure v = Some URIError
        <-> exists tokens,
              tokens_of v = Some tokens
              /\ lone_surrogate (join (lit ",") (List.map trim tokens))
                 = true)
  /\ (forall o, exists u, prototype.fetch o = yields u o).
Proof.
  split; [|split; [|split; [|split]]];
    [| | apply of_failure_TypeError_iff | apply of_failure_URIError_iff |].
  - intros m o e H.
    destruct m as [| | | | r | | v | | | |]; try discriminate H.
    + unfold invoke, prototype.randomize in H.
      destruct (_ || _) in H; discriminate H.
    + exists v. split; [reflexivity|].
      apply (of_throws_iff v o e). exact H.
    + unfold invoke, bind in H. rewrite fetch_serialize in H.
      discriminate H.
  - intros v o e H. apply (of_throws_iff v o e). exact H.
  - intros o. eexists. apply fetch_serialize.
Qed.

Lemma C8_only_keyword_setter_throws_witness :
  returned (invoke (Of (VNum 5)) new_UnsplashPhoto) = Throw TypeError
  /\ (exists v, Of (VNum 5) = Of v /\ of_failure v = Some TypeError)
  /\ of_failure (VStr [56320%N]) = Some URIError
  /\ returned (invoke (Of (VStr [56320%N])) new_UnsplashPhoto)
     = Throw URIError.
Proof.
  destruct C8_only_keyword_setter_throws as (H1 & H2 & _ & _ & _).
  split; [reflexivity|]. split.
  - apply (H1 (Of (VNum 5)) new_UnsplashPhoto TypeError). reflexivity.
  - split; [reflexivity|].
    apply (H2 (VStr [56320%N]) new_UnsplashPhoto URIError). reflexivity.
Defined.

(** * Further properties *)

(** ** What a call changes *)

Lemma invoke_Fetch (o : UnsplashPhoto) :
  invoke Fetch o = (Normal tt, with_url (url o ++ path o) o).
Proof.
  unfold invoke, bind. rewrite fetch_serialize. reflexivity.
Qed.

Lemma starts_with_app_r (p s t : jsstring) :
  starts_with p s = true -> starts_with p (s ++ t) = true.
Proof.
  revert s; induction p as [|x p IH]; intros s H; [reflexivity|].
  destruct s as [|y s]; [discriminate|].
  simpl in *. apply andb_true_iff in H. destruct H as [-> H].
  rewrite (IH _ H). reflexivity.
Qed.

(** X1: [fetch] only ever appends to [this.url] and does not reset it:
    after [n] calls the stored URL is the old one followed by [n] copies of
    the path, every other field is as before, and one more call returns one
    more copy. *)
Theorem X1_fetch_repeated (n : nat) (o : UnsplashPhoto) :
  run_all (repeat Fetch n) o
  = with_url (url o ++ List.concat (repeat (path o) n)) o
  /\ prototype.fetch (run_all (repeat Fetch n) o)
     = yields (url o ++ List.concat (repeat (path o) n) ++ path o) o.
Proof.
  assert (H : forall k o',
             run_all (repeat Fetch k) o'
             = with_url (url o' ++ List.concat (repeat (path o') k)) o').
  { induction k as [|k IH]; intros o'.
    - simpl. rewrite app_nil_r, with_url_same. reflexivity.
    - cbn [repeat run_all]. rewrite invoke_Fetch. cbn [receiver snd].
      rewrite IH. cbn [url with_url List.concat].
      change (path (with_url (url o' ++ path o') o')) with (path o').
      rewrite <- app_assoc. reflexivity. }
  split; [apply H|].
  rewrite H, fetch_serialize. unfold yields, serialize.
  cbn [url with_url]. rewrite <- !app_assoc. reflexivity.
Qed.

Lemma invoke_frame (m : method) (f : field) (o : UnsplashPhoto) :
  writes_field f m = false ->
  read_field f (receiver (invoke m o)) = read_field f o.
Proof.
  intros H.
  destruct m as [v | v | v | w h | v | | v | v | v | v |].
  7: { unfold invoke. rewrite of_spec.
       destruct (tokens_of v); [|reflexivity]. cbv zeta.
       destruct (encodeURI _); destruct f; try discriminate H; reflexivity. }
  10: { rewrite invoke_Fetch. destruct f; try discriminate H; reflexivity. }
  5: { unfold invoke, prototype.randomize.
       destruct (_ || _); destruct f; try discriminate H; reflexivity. }
  all: destruct f; try discriminate H; reflexivity.
Qed.

(** X2: calls, whether they return or throw, leave every field none of
    them assigns as it was: the selector setters, [width], [height],
    [size], [randomize], [featured] and [of] never touch the URL or each
    other's fields, and [fetch] changes the URL only. *)
Theorem X2_call_frame (calls : list method) (f : field) (o : UnsplashPhoto) :
  forallb (fun m => negb (writes_field f m)) calls = true ->
  read_field f (run_all calls o) = read_field f o.
Proof.
  revert o; induction calls as [|m calls IH]; intros o H; [reflexivity|].
  cbn [forallb] in H. apply andb_true_iff in H. destruct H as [Hm H].
  cbn [run_all]. rewrite (IH _ H). apply invoke_frame.
  destruct (writes_field f m); [discriminate Hm | reflexivity].
Qed.

Lemma X2_call_frame_witness :
  let calls := [Of (VStr [55296%N]); Size (VNum 2) VNull; Fetch] in
  forallb (fun m => negb (writes_field FId m)) calls = true
  /\ writes_field FKeywords (Of (VStr [55296%N])) = true
  /\ id (run_all calls (with_id (VNum 5) new_UnsplashPhoto)) = VNum 5.
Proof.
  intros calls. split; [reflexivity|]. split; [reflexivity|].
  exact (@X2_call_frame calls FId (with_id (VNum 5) new_UnsplashPhoto)
           eq_refl).
Defined.

(** ** Invariants of an instance *)

Lemma run_all_app (a b : list method) (o : UnsplashPhoto) :
  run_all (a ++ b) o = run_all b (run_all a o).
Proof.
  revert o; induction a as [|m a IH]; intros o; [reflexivity|].
  simpl. apply IH.
Qed.

Lemma well_formed_invoke (m : method) (o : UnsplashPhoto) :
  well_formed o -> well_formed (receiver (invoke m o)).
Proof.
  intros (Hv & Hs & Hr & Hk & Hu).
  destruct m as [v | v | v | w h | v | | v | v | v | v |];
    try (repeat split; assumption).
  - (* randomize *)
    unfold invoke, prototype.randomize.
    destruct (eq_lit v (lit "daily") || eq_lit v (lit "weekly")) eqn:E;
      repeat split; try assumption.
    cbn [receiver snd assign randomizationInterval
         with_randomizationInterval].
    apply orb_true_iff in E. destruct E as [-> | ->];
      rewrite ?orb_true_r; reflexivity.
  - (* featured *)
    repeat split; try assumption. right. reflexivity.
  - (* of *)
    unfold invoke. rewrite of_spec.
    destruct (tokens_of v); [|repeat split; assumption]. cbv zeta.
    destruct (encodeURI _); repeat split; try assumption;
      right; eexists; reflexivity.
  - (* fetch *)
    rewrite invoke_Fetch. repeat split; try assumption.
    apply starts_with_app_r. exact Hu.
Qed.

(** X3: whatever calls are made on a new instance, in any order and also
    when some of them throw, the version stays [1.0.0], the scope is [all]
    or [featured], the interval equals one of [perRequest], [daily] and
    [weekly], the keywords are unset or a string, and the URL begins with
    the service root. *)
Theorem X3_instance_invariant (calls : list method) :
  well_formed (run_all calls new_UnsplashPhoto).
Proof.
  assert (H : forall o, well_formed o -> well_formed (run_all calls o)).
  { induction calls as [|m calls IH]; intros o Ho; [exact Ho|].
    apply IH, well_formed_invoke, Ho. }
  apply H. repeat split; left; reflexivity.
Qed.

Lemma setter_keeps_url (m : method) (o : UnsplashPhoto) :
  is_fetch m = false -> url (receiver (invoke m o)) = url o.
Proof.
  intros H.
  assert (E : read_field FUrl (receiver (invoke m o)) = read_field FUrl o)
    by (apply invoke_frame; destruct m; try discriminate H; reflexivity).
  cbn [read_field] in E. inversion E. reflexivity.
Qed.

(** X4: before the first [fetch] the stored URL is the service root
    itself, whatever setters ran and whether or not they threw, so the
    first [fetch] returns the root followed by the path. *)
Theorem X4_first_fetch_from_root (calls : list method) :
  forallb (fun m => negb (is_fetch m)) calls = true ->
  url (run_all calls new_UnsplashPhoto) = lit "https://source.unsplash.com"
  /\ returned (prototype.fetch (run_all calls new_UnsplashPhoto))
     = Normal (lit "https://source.unsplash.com"
               ++ path (run_all calls new_UnsplashPhoto)).
Proof.
  intros H.
  assert (E : forall o, url (run_all calls o) = url o).
  { induction calls as [|m calls IH]; intros o; [reflexivity|].
    cbn [forallb] in H. apply andb_true_iff in H. destruct H as [Hm H].
    cbn [run_all]. rewrite (IH H). apply setter_keeps_url.
    destruct (is_fetch m); [discriminate Hm | reflexivity]. }
  split; [apply E|].
  rewrite fetch_returned. unfold serialize, path. rewrite E. reflexivity.
Qed.

Lemma X4_first_fetch_from_root_witness :
  let calls := [Of (VNum 3); FromUser (VStr (lit "erondu")); Featured;
                Width (VNum 80); Randomize (VStr (lit "daily"))] in
  forallb (fun m => negb (is_fetch m)) calls = true
  /\ returned (prototype.fetch (run_all calls new_UnsplashPhoto))
     = Normal (lit "https://source.unsplash.com/user/erondu/featured/daily").
Proof.
  intros calls.
  destruct (@X4_first_fetch_from_root calls eq_refl) as [_ H].
  split; [reflexivity|]. rewrite H. reflexivity.
Defined.

Lemma featured_stays (m : method) (o : UnsplashPhoto) :
  scope o = lit "featured" -> scope (receiver (invoke m o)) = lit "featured".
Proof.
  intros H. destruct m as [v | v | v | w h | v | | v | v | v | v |];
    try exact H; try reflexivity.
  - unfold invoke, prototype.randomize. destruct (_ || _); exact H.
  - assert (E : read_field FScope (receiver (invoke (Of v) o))
                = read_field FScope o) by (apply invoke_frame; reflexivity).
    cbn [read_field] in E. inversion E as [E']. exact (eq_trans E' H).
  - rewrite invoke_Fetch. exact H.
Qed.

(** X5: [featured()] cannot be undone: once it was called, no later call
    changes the scope back, and every later [fetch] outside the id branch
    has [/featured] right after the selector segment. *)
Theorem X5_featured_is_final (before after : list method)
    (o : UnsplashPhoto) :
  let o' := run_all (before ++ Featured :: after) o in
  scope o' = lit "featured"
  /\ (is_set (id o') = false ->
      returned (prototype.fetch o')
      = Normal (url o' ++ selector_segment (first_selector o') o'
                ++ lit "/featured" ++ dimension_segment o'
                ++ randomization_segment
                     (includes_random (first_selector o')) o'
                ++ keyword_segment o')).
Proof.
  intros o'.
  assert (Hs : scope o' = lit "featured").
  { unfold o'. rewrite run_all_app. cbn [run_all].
    generalize (receiver (invoke Featured (run_all before o))) (eq_refl :
      scope (receiver (invoke Featured (run_all before o))) = lit "featured").
    induction after as [|m after IH]; intros o1 H1; [exact H1|].
    cbn [run_all]. apply IH, featured_stays, H1. }
  split; [exact Hs|]. intros Hid. rewrite fetch_returned.
  unfold serialize. f_equal. f_equal.
  assert (Hseg : scope_segment o' = lit "/featured")
    by (unfold scope_segment; rewrite Hs; reflexivity).
  unfold first_selector in *. rewrite Hid.
  destruct (is_set (username o')); [cbn [branch_tail]; rewrite Hseg; reflexivity|].
  destruct (is_set (category o')); [cbn [branch_tail]; rewrite Hseg; reflexivity|].
  destruct (is_set (collection o')); cbn [branch_tail]; rewrite Hseg;
    reflexivity.
Qed.

Lemma X5_featured_is_final_witness :
  let o' := run_all ([Size (VNum 4) (VNum 3)] ++ Featured
                       :: [Randomize (VNum 7); Of (VNull)])
              new_UnsplashPhoto in
  is_set (id o') = false
  /\ returned (prototype.fetch o')
     = Normal (lit "https://source.unsplash.com/featured/4x3/random").
Proof.
  intros o'.
  destruct (@X5_featured_is_final [Size (VNum 4) (VNum 3)]
              [Randomize (VNum 7); Of (VNull)] new_UnsplashPhoto) as [_ H].
  split; [reflexivity|]. exact (eq_trans (H eq_refl) eq_refl).
Defined.

(** ** How calls compose *)

Lemma of_completes (v : value) :
  completes (Of v) = true ->
  exists k, forall o,
    prototype.of_ v o = (Normal tt, with_keywords (VStr k) o).
Proof.
  unfold completes, of_failure. intros H.
  destruct (tokens_of v) as [tokens|] eqn:T; [|discriminate H].
  destruct (lone_surrogate _) eqn:L; [discriminate H|].
  destruct (encodeURI (join (lit ",") (List.map trim tokens))) as [k|] eqn:E.
  - exists k. intros o. rewrite of_spec, T. cbv zeta. rewrite E. reflexivity.
  - apply encodeURI_None_iff in E. congruence.
Qed.

(** Replace a keyword setter that completes by the assignment it makes. *)
Ltac of_as_assignment :=
  repeat match goal with
         | H : completes (Of ?v) = true |- _ =>
             let k := fresh "k" in
             let Hk := fresh "Hk" in
             destruct (of_completes v H) as [k Hk]; clear H
         end.

Ltac unfold_setters :=
  unfold invoke, bind, prototype.find, prototype.width, prototype.height,
    prototype.size, prototype.featured, prototype.fromUser,
    prototype.fromCategory, prototype.fromCollection, prototype.randomize,
    assign;
  repeat match goal with
         | |- context [eq_lit ?v (lit "daily") || eq_lit ?v (lit "weekly")] =>
             destruct (eq_lit v (lit "daily") || eq_lit v (lit "weekly"))
         end;
  cbn beta iota.

Ltac run_setters :=
  unfold_setters;
  repeat match goal with
         | Hk : forall o, prototype.of_ _ o = _ |- _ =>
             rewrite Hk; cbn beta iota
         end;
  reflexivity.

(** X6: two setter calls that complete and assign different fields can be
    made in either order: the chain ends in the same instance.  [width]
    and [height] count as different fields, [size] as both. *)
Theorem X6_independent_setters_commute (m m' : method) (o : UnsplashPhoto) :
  completes m = true -> completes m' = true -> independent m m' = true ->
  (invoke m ;; invoke m') o = (invoke m' ;; invoke m) o.
Proof.
  intros Hm Hm' Hi.
  destruct m, m'; try discriminate Hi; try discriminate Hm;
    try discriminate Hm'; of_as_assignment; run_setters.
Qed.

Lemma X6_independent_setters_commute_witness :
  completes (Width (VNum 3)) = true
  /\ completes (Of (VStr (lit "a b"))) = true
  /\ independent (Width (VNum 3)) (Of (VStr (lit "a b"))) = true
  /\ (invoke (Width (VNum 3)) ;; invoke (Of (VStr (lit "a b"))))
       new_UnsplashPhoto
     = (invoke (Of (VStr (lit "a b"))) ;; invoke (Width (VNum 3)))
         new_UnsplashPhoto.
Proof.
  split; [reflexivity|]. split; [reflexivity|]. split; [reflexivity|].
  apply (@X6_independent_setters_commute (Width (VNum 3))
           (Of (VStr (lit "a b"))) new_UnsplashPhoto); reflexivity.
Defined.

(** X7: the last write wins.  When a setter call that completes assigns
    every field an earlier setter call assigned, the earlier call leaves no
    trace, even if it threw and was caught; calling a setter twice with the
    same argument is calling it once. *)
Theorem X7_last_write_wins (m m' : method) (o : UnsplashPhoto) :
  completes m' = true -> overwritten_by m m' = true ->
  run_all [m; m'] o = run_all [m'] o
  /\ (completes m = true -> (invoke m ;; invoke m') o = invoke m' o)
  /\ (invoke m' ;; invoke m') o = invoke m' o.
Proof.
  intros Hm' Ho. split; [|split].
  - cbn [run_all].
    destruct m as [v | v | v | w h | v | | v | v | v | v |], m';
      try discriminate Ho; try discriminate Hm';
      try (of_as_assignment; unfold invoke; rewrite !Hk; rewrite of_spec;
           destruct (tokens_of v); [|reflexivity]; cbv zeta;
           destruct (encodeURI _); reflexivity);
      unfold_setters; reflexivity.
  - intros Hm.
    destruct m, m'; try discriminate Ho; try discriminate Hm;
      try discriminate Hm'; of_as_assignment; run_setters.
  - destruct m'; try discriminate Hm'; of_as_assignment; run_setters.
Qed.

Lemma X7_last_write_wins_witness :
  completes (Size (VNum 9) VUndefined) = true
  /\ overwritten_by (Height (VNum 2)) (Size (VNum 9) VUndefined) = true
  /\ run_all [Height (VNum 2); Size (VNum 9) VUndefined] new_UnsplashPhoto
     = run_all [Size (VNum 9) VUndefined] new_UnsplashPhoto.
Proof.
  split; [reflexivity|]. split; [reflexivity|].
  apply (@X7_last_write_wins (Height (VNum 2)) (Size (VNum 9) VUndefined)
           new_UnsplashPhoto); reflexivity.
Defined.

(** X8: [size] replaces the dimensions, whatever they were.  For
    arguments whose numbers are integers below [2^53] in size, a [fetch]
    after [size(w, h)] has, in every branch, the segment [/<w>x<h'>] with
    [h'] the height when it is truthy and [w] otherwise, provided [w] is
    truthy; with a falsy [w] it has no dimension segment at all.  For
    integers [a] and [b] other than [0] the segment is their numerals. *)
Theorem X8_fetch_after_size (w h : value) (o : UnsplashPhoto) :
  safe_value w = true -> safe_value h = true ->
  let sel := first_selector o in
  returned ((prototype.size w h ;; prototype.fetch) o)
  = Normal (before_dimensions sel o
            ++ (if ToBoolean w
                then lit "/" ++ ToString w ++ lit "x" ++ ToString (or_else h w)
                else [])
            ++ after_dimensions sel o)
  /\ (forall a b, w = VNum a -> h = VNum b -> a <> 0%Z -> b <> 0%Z ->
      returned ((prototype.size w h ;; prototype.fetch) o)
      = Normal (before_dimensions sel o
                ++ lit "/" ++ decimal a ++ lit "x" ++ decimal b
                ++ after_dimensions sel o)).
Proof.
  intros Sw Sh sel.
  assert (G : returned ((prototype.size w h ;; prototype.fetch) o)
              = Normal (before_dimensions sel o
                        ++ (if ToBoolean w
                            then lit "/" ++ ToString w ++ lit "x"
                                 ++ ToString (or_else h w)
                            else [])
                        ++ after_dimensions sel o)).
  { unfold bind, prototype.size, assign.
    rewrite fetch_returned, first_selector_with_dimensions,
      serialize_around_dimensions.
    fold sel. unfold dimension_segment, has_dimensions.
    cbn [dimensions with_dimensions Dimensions.width Dimensions.height].
    replace (before_dimensions sel
               (with_dimensions (Dimensions.mk w (or_else h w)) o))
      with (before_dimensions sel o) by (destruct sel; reflexivity).
    replace (after_dimensions sel
               (with_dimensions (Dimensions.mk w (or_else h w)) o))
      with (after_dimensions sel o) by (destruct sel; reflexivity).
    unfold or_else.
    destruct (ToBoolean w) eqn:Hw; [|reflexivity].
    destruct (ToBoolean h) eqn:Hh; cbn [andb]; rewrite ?Hh, ?Hw;
      reflexivity. }
  split; [exact G|].
  intros a b -> -> Ha Hb. rewrite G. unfold or_else.
  cbn [ToBoolean ToString safe_value] in *.
  apply Z.eqb_neq in Ha. apply Z.eqb_neq in Hb. rewrite Ha, Hb.
  cbn [negb ToString]. rewrite (number_to_string_safe _ Sw),
    (number_to_string_safe _ Sh).
  rewrite <- !app_assoc. reflexivity.
Qed.

Lemma X8_fetch_after_size_witness :
  let o := receiver ((prototype.width (VNum 1) ;;
                      prototype.fromUser (VStr (lit "bob")))
                     new_UnsplashPhoto) in
  safe_value (VNum 640) = true /\ safe_value (VNum 0) = true
  /\ returned ((prototype.size (VNum 640) (VNum 0) ;; prototype.fetch) o)
     = Normal (lit "https://source.unsplash.com/user/bob/640x640")
  /\ returned ((prototype.size (VNum 640) (VNum 480) ;; prototype.fetch) o)
     = Normal (lit "https://source.unsplash.com/user/bob/640x480").
Proof.
  intros o.
  destruct (@X8_fetch_after_size (VNum 640) (VNum 0) o eq_refl eq_refl)
    as [H _].
  destruct (@X8_fetch_after_size (VNum 640) (VNum 480) o eq_refl eq_refl)
    as [_ H'].
  split; [reflexivity|]. split; [reflexivity|]. split.
  - rewrite H. reflexivity.
  - rewrite (H' 640%Z 480%Z eq_refl eq_refl); [reflexivity | | ]; discriminate.
Defined.

(** ** [split], [join], [trim] and [encodeURI] on the keyword setter's way *)

Lemma split_nonempty (sep : code_unit) (s : jsstring) : split sep s <> [].
Proof.
  destruct s as [|c r]; simpl; [discriminate|].
  destruct (N.eqb c sep); [discriminate|].
  destruct (split sep r); discriminate.
Qed.

(** Joining what was split gives the string back. *)
Lemma join_split (sep : code_unit) (s : jsstring) :
  join [sep] (split sep s) = s.
Proof.
  induction s as [|c r IH]; [reflexivity|].
  cbn [split]. destruct (N.eqb_spec c sep) as [->|_].
  - pose proof (split_nonempty sep r) as Hne.
    destruct (split sep r) as [|t ts]; [contradiction|].
    change (join [sep] ([] :: t :: ts)) with (sep :: join [sep] (t :: ts)).
    rewrite IH. reflexivity.
  - pose proof (split_nonempty sep r) as Hne.
    destruct (split sep r) as [|t ts]; [contradiction|].
    rewrite <- IH. destruct ts; reflexivity.
Qed.

Lemma split_keeps (P : code_unit -> bool) (sep : code_unit) (s : jsstring) :
  forallb P s = true -> forallb (forallb P) (split sep s) = true.
Proof.
  induction s as [|c r IH]; [reflexivity|].
  cbn [forallb split]. intros H. apply andb_true_iff in H.
  destruct H as [Hc Hr]. specialize (IH Hr).
  destruct (N.eqb c sep); [exact IH|].
  destruct (split sep r) as [|t ts]; cbn [forallb] in *.
  - rewrite Hc. reflexivity.
  - apply andb_true_iff in IH. destruct IH as [Ht Hts].
    rewrite Hc, Ht, Hts. reflexivity.
Qed.

Lemma split_without_sep (t : jsstring) :
  forallb not_comma t = true -> split 44%N t = [t].
Proof.
  induction t as [|c r IH]; [reflexivity|].
  cbn [forallb split]. intros H. apply andb_true_iff in H.
  destruct H as [Hc Hr]. unfold not_comma in Hc.
  destruct (N.eqb c 44); [discriminate Hc|].
  rewrite (IH Hr). reflexivity.
Qed.

Lemma split_app_sep (t s : jsstring) :
  forallb not_comma t = true ->
  split 44%N (t ++ 44%N :: s) = t :: split 44%N s.
Proof.
  induction t as [|c r IH]; [reflexivity|].
  cbn [forallb app split]. intros H. apply andb_true_iff in H.
  destruct H as [Hc Hr]. unfold not_comma in Hc.
  destruct (N.eqb c 44); [discriminate Hc|].
  rewrite (IH Hr). reflexivity.
Qed.

(** Splitting what was joined gives the tokens back, when no token holds
    a comma. *)
Lemma split_join (ts : list jsstring) :
  ts <> [] -> forallb (forallb not_comma) ts = true ->
  split 44%N (join [44%N] ts) = ts.
Proof.
  induction ts as [|t ts IH]; [contradiction|].
  intros _ H. cbn [forallb] in H. apply andb_true_iff in H.
  destruct H as [Ht Hts]. destruct ts as [|t' ts].
  - apply split_without_sep, Ht.
  - change (join [44%N] (t :: t' :: ts))
      with (t ++ 44%N :: join [44%N] (t' :: ts)).
    rewrite split_app_sep by exact Ht.
    rewrite IH; [reflexivity | discriminate | exact Hts].
Qed.

Lemma trim_start_clean (t : jsstring) :
  clean_start t -> trim_start t = t.
Proof.
  destruct t as [|c r]; [reflexivity|]. simpl. intros ->. reflexivity.
Qed.

Lemma trim_without_white_space (t : jsstring) :
  forallb not_white_space t = true -> trim t = t.
Proof.
  intros H. unfold trim, trim_end.
  assert (Hc : forall u, forallb not_white_space u = true -> clean_start u).
  { intros [|c r] Hu; [exact I|]. simpl in Hu.
    apply andb_true_iff in Hu. destruct Hu as [Hu _].
    apply negb_true_iff in Hu. exact Hu. }
  rewrite (trim_start_clean _ (Hc _ H)).
  rewrite (trim_start_clean _ (Hc _ (forallb_rev _ _ H))).
  apply rev_involutive.
Qed.

Lemma map_trim_without_white_space (ts : list jsstring) :
  forallb (forallb not_white_space) ts = true -> List.map trim ts = ts.
Proof.
  induction ts as [|t ts IH]; [reflexivity|].
  cbn [forallb List.map]. intros H. apply andb_true_iff in H.
  destruct H as [Ht Hts].
  rewrite (trim_without_white_space _ Ht), (IH Hts). reflexivity.
Qed.

Lemma trim_white_space (s : jsstring) :
  forallb is_white_space s = true -> trim s = [].
Proof.
  intros H. unfold trim.
  assert (E : trim_start s = []).
  { induction s as [|c r IH]; [reflexivity|].
    cbn [forallb] in H. apply andb_true_iff in H. destruct H as [Hc Hr].
    cbn [trim_start]. rewrite Hc. apply IH, Hr. }
  rewrite E. reflexivity.
Qed.

Lemma white_space_not_comma (s : jsstring) :
  forallb is_white_space s = true -> forallb not_comma s = true.
Proof.
  induction s as [|c r IH]; [reflexivity|].
  cbn [forallb]. intros H. apply andb_true_iff in H. destruct H as [Hc Hr].
  rewrite (IH Hr), andb_true_r. unfold not_comma.
  destruct (N.eqb_spec c 44) as [->|_]; [discriminate Hc|reflexivity].
Qed.

Lemma unescaped_not_white_space (c : code_unit) :
  uri_unescaped c = true -> not_white_space c = true.
Proof.
  intros H. pose proof (unescaped_below_128 c H) as Hlt.
  unfold not_white_space. destruct (is_white_space c) eqn:W; [|reflexivity].
  exfalso.
  assert (E : (c = 9 \/ c = 10 \/ c = 11 \/ c = 12 \/ c = 13 \/ c = 32)%N).
  { unfold is_white_space in W.
    repeat rewrite orb_true_iff in W.
    repeat rewrite andb_true_iff in W.
    repeat rewrite N.leb_le in W. repeat rewrite N.eqb_eq in W. lia. }
  destruct E as [->|[->|[->|[->|[->| ->]]]]]; discriminate H.
Qed.

(** A string that needs no escaping is left as it is. *)
Lemma encodeURI_unescaped (s : jsstring) :
  forallb uri_unescaped s = true -> encodeURI s = Some s.
Proof.
  induction s as [|c r IH]; [reflexivity|].
  cbn [forallb]. intros H. apply andb_true_iff in H. destruct H as [Hc Hr].
  rewrite encodeURI_cons, Hc, (IH Hr). reflexivity.
Qed.

(** ** The keyword setter, further *)

Lemma unescaped_string_without_white_space (s : jsstring) :
  forallb uri_unescaped s = true -> forallb not_white_space s = true.
Proof.
  rewrite !forallb_forall. intros H c Hc.
  apply unescaped_not_white_space, H, Hc.
Qed.

Lemma tokens_without_white_space (s : jsstring) :
  forallb not_white_space s = true ->
  join (lit ",") (List.map trim (split 44%N s)) = s.
Proof.
  intros H.
  rewrite map_trim_without_white_space by (apply split_keeps; exact H).
  exact (join_split 44%N s).
Qed.

(** X9: on a string without white space the keyword setter stores
    [encodeURI] of the string itself: splitting at the commas, trimming and
    joining again change nothing.  A string made of letters, digits and the
    marks a URI keeps is stored as it is. *)
Theorem X9_of_without_white_space (s : jsstring) (o : UnsplashPhoto) :
  (forallb not_white_space s = true ->
   prototype.of_ (VStr s) o
   = match encodeURI s with
     | Some e => (Normal tt, with_keywords (VStr e) o)
     | None => (Throw URIError, with_keywords (VStr s) o)
     end)
  /\ (forallb uri_unescaped s = true ->
      prototype.of_ (VStr s) o = (Normal tt, with_keywords (VStr s) o)).
Proof.
  split; intros H.
  - rewrite of_spec. cbn [tokens_of]. cbv zeta.
    rewrite (tokens_without_white_space _ H). reflexivity.
  - rewrite of_spec. cbn [tokens_of]. cbv zeta.
    rewrite (tokens_without_white_space _
               (unescaped_string_without_white_space _ H)).
    rewrite (encodeURI_unescaped _ H). reflexivity.
Qed.

Lemma X9_of_without_white_space_witness :
  forallb uri_unescaped (lit "sea,sky/blue") = true
  /\ keywords (receiver (prototype.of_ (VStr (lit "sea,sky/blue"))
                           new_UnsplashPhoto))
     = VStr (lit "sea,sky/blue").
Proof.
  destruct (X9_of_without_white_space (lit "sea,sky/blue")
              new_UnsplashPhoto) as [_ H].
  split; [reflexivity|]. rewrite (H eq_refl). reflexivity.
Defined.

(** X10: a list of strings and the same strings joined with commas are
    the same argument to the keyword setter, as long as no string of the
    list holds a comma itself: both calls end alike, in the result and in
    the instance. *)
Theorem X10_of_list_or_joined (tokens : list jsstring) (o : UnsplashPhoto) :
  forallb (forallb not_comma) tokens = true ->
  prototype.of_ (VStr (join (lit ",") tokens)) o
  = prototype.of_ (VArr (List.map VStr tokens)) o.
Proof.
  intros H. rewrite !of_spec. cbn [tokens_of].
  rewrite strings_of_map_VStr.
  destruct tokens as [|t ts]; [reflexivity|].
  change (lit ",") with [44%N].
  rewrite split_join; [reflexivity | discriminate | exact H].
Qed.

Lemma X10_of_list_or_joined_witness :
  forallb (forallb not_comma) [lit " red car"; lit "tree "] = true
  /\ returned
       ((prototype.of_ (VStr (join (lit ",") [lit " red car"; lit "tree "])) ;;
         prototype.fetch) new_UnsplashPhoto)
     = returned
         ((prototype.of_ (VArr [VStr (lit " red car"); VStr (lit "tree ")]) ;;
           prototype.fetch) new_UnsplashPhoto).
Proof.
  split; [reflexivity|]. unfold bind.
  rewrite (@X10_of_list_or_joined [lit " red car"; lit "tree "]
             new_UnsplashPhoto eq_refl).
  reflexivity.
Defined.

(** X11: an empty or all-blank keyword string, like an empty list, stores
    the empty string, which [fetch] takes for no keywords: the call
    removes the keyword query string from the URL, also one set before. *)
Theorem X11_blank_keywords_clear (s : jsstring) (o : UnsplashPhoto) :
  forallb is_white_space s = true ->
  prototype.of_ (VStr s) o = (Normal tt, with_keywords (VStr []) o)
  /\ prototype.of_ (VArr []) o = (Normal tt, with_keywords (VStr []) o)
  /\ returned ((prototype.of_ (VStr s) ;; prototype.fetch) o)
     = returned (prototype.fetch (with_keywords VUndefined o))
  /\ keyword_segment (receiver (prototype.of_ (VStr s) o)) = [].
Proof.
  intros H.
  assert (E : prototype.of_ (VStr s) o
              = (Normal tt, with_keywords (VStr []) o)).
  { rewrite of_spec. cbn [tokens_of].
    rewrite (split_without_sep _ (white_space_not_comma _ H)).
    cbn [List.map]. rewrite (trim_white_space _ H). reflexivity. }
  split; [exact E|]. split; [rewrite of_spec; reflexivity|]. split.
  - unfold bind. rewrite E, !fetch_returned.
    change (first_selector (with_keywords (VStr []) o))
      with (first_selector (with_keywords VUndefined o)).
    destruct (first_selector (with_keywords VUndefined o)); reflexivity.
  - rewrite E. reflexivity.
Qed.

Lemma X11_blank_keywords_clear_witness :
  let o := receiver (prototype.of_ (VStr (lit "dog")) new_UnsplashPhoto) in
  forallb is_white_space (lit "  ") = true
  /\ returned (prototype.fetch o)
     = Normal (lit "https://source.unsplash.com/random?dog")
  /\ returned ((prototype.of_ (VStr (lit "  ")) ;; prototype.fetch) o)
     = Normal (lit "https://source.unsplash.com/random").
Proof.
  intros o.
  destruct (@X11_blank_keywords_clear (lit "  ") o eq_refl)
    as (_ & _ & H & _).
  split; [reflexivity|]. split; [reflexivity|].
  rewrite H. reflexivity.
Defined.

Lemma fetch_with_raw_keywords (raw : jsstring) (o : UnsplashPhoto) :
  raw <> [] -> is_set (id o) = false ->
  returned (prototype.fetch (with_keywords (VStr raw) o))
  = Normal (url o ++ selector_segment (first_selector o) o
            ++ scope_segment o ++ dimension_segment o
            ++ randomization_segment (includes_random (first_selector o)) o
            ++ lit "?" ++ raw).
Proof.
  intros Hraw Hid. rewrite fetch_returned.
  change (first_selector (with_keywords (VStr raw) o))
    with (first_selector o).
  unfold serialize. f_equal. f_equal.
  assert (K : keyword_segment (with_keywords (VStr raw) o) = lit "?" ++ raw).
  { unfold keyword_segment. cbn [keywords with_keywords ToBoolean ToString].
    destruct raw; [contradiction | reflexivity]. }
  unfold first_selector in *. rewrite Hid.
  destruct (is_set (username o));
    [cbn [branch_tail includes_random]; rewrite K; reflexivity|].
  destruct (is_set (category o));
    [cbn [branch_tail includes_random]; rewrite K; reflexivity|].
  destruct (is_set (collection o));
    cbn [branch_tail includes_random]; rewrite K; reflexivity.
Qed.

(** X12: what a throwing keyword setter leaves behind.  A type error (the
    argument is neither a string nor a list, or a list with an element
    that is not a string) leaves the instance untouched.  A URI error
    comes after the first assignment: for a list of strings, and for a
    string through its comma-separated pieces, the tokens trimmed and
    joined with commas, still unescaped and with their unpaired surrogate,
    are what is stored, and a [fetch] made after catching the error,
    outside the id branch, ends the URL with [?] and that very string. *)
Theorem X12_of_failure_state (o : UnsplashPhoto) :
  (forall v,
     is_string_or_list v = false
     \/ (exists l x, v = VArr l /\ In x l /\ is_string x = false) ->
     prototype.of_ v o = (Throw TypeError, o))
  /\ (forall tokens,
        let raw := join (lit ",") (List.map trim tokens) in
        lone_surrogate raw = true ->
        prototype.of_ (VArr (List.map VStr tokens)) o
        = (Throw URIError, with_keywords (VStr raw) o)
        /\ (is_set (id o) = false ->
            returned (prototype.fetch
                        (receiver (prototype.of_
                                     (VArr (List.map VStr tokens)) o)))
            = Normal (url o ++ selector_segment (first_selector o) o
                      ++ scope_segment o ++ dimension_segment o
                      ++ randomization_segment
                           (includes_random (first_selector o)) o
                      ++ lit "?" ++ raw)))
  /\ (forall s,
        let raw := join (lit ",") (List.map trim (split 44%N s)) in
        lone_surrogate raw = true ->
        prototype.of_ (VStr s) o
        = (Throw URIError, with_keywords (VStr raw) o)
        /\ (is_set (id o) = false ->
            returned (prototype.fetch (receiver (prototype.of_ (VStr s) o)))
            = Normal (url o ++ selector_segment (first_selector o) o
                      ++ scope_segment o ++ dimension_segment o
                      ++ randomization_segment
                           (includes_random (first_selector o)) o
                      ++ lit "?" ++ raw))).
Proof.
  assert (U : forall v tokens,
             tokens_of v = Some tokens ->
             let raw := join (lit ",") (List.map trim tokens) in
             lone_surrogate raw = true ->
             prototype.of_ v o = (Throw URIError, with_keywords (VStr raw) o)
             /\ (is_set (id o) = false ->
                 returned (prototype.fetch (receiver (prototype.of_ v o)))
                 = Normal (url o ++ selector_segment (first_selector o) o
                           ++ scope_segment o ++ dimension_segment o
                           ++ randomization_segment
                                (includes_random (first_selector o)) o
                           ++ lit "?" ++ raw))).
  { intros v tokens T raw L.
    assert (E : prototype.of_ v o
                = (Throw URIError, with_keywords (VStr raw) o)).
    { rewrite of_spec, T. cbv zeta. fold raw.
      apply encodeURI_None_iff in L. rewrite L. reflexivity. }
    split; [exact E|]. intros Hid. rewrite E. cbn [receiver snd].
    apply fetch_with_raw_keywords; [|exact Hid].
    intros N. rewrite N in L. discriminate L. }
  split; [|split].
  - intros v H. apply of_failure_TypeError_iff in H.
    unfold of_failure in H. rewrite of_spec.
    destruct (tokens_of v); [|reflexivity].
    destruct (lone_surrogate _); discriminate H.
  - intros tokens. apply U. cbn [tokens_of]. apply strings_of_map_VStr.
  - intros s. apply U. reflexivity.
Qed.

Lemma X12_of_failure_state_witness :
  lone_surrogate (join (lit ",")
                    (List.map trim (split 44%N (lit "sun, " ++ [55357%N]))))
  = true
  /\ prototype.of_ (VArr [VStr (lit "sun"); VNum 1]) new_UnsplashPhoto
     = (Throw TypeError, new_UnsplashPhoto)
  /\ returned (prototype.fetch
                 (receiver (prototype.of_ (VStr (lit "sun, " ++ [55357%N]))
                              new_UnsplashPhoto)))
     = Normal (lit "https://source.unsplash.com/random?sun," ++ [55357%N]).
Proof.
  destruct (X12_of_failure_state new_UnsplashPhoto) as (H1 & _ & H3).
  split; [reflexivity|]. split.
  - apply H1. right. exists [VStr (lit "sun"); VNum 1], (VNum 1).
    split; [reflexivity|]. split; [right; left; reflexivity | reflexivity].
  - destruct (H3 (lit "sun, " ++ [55357%N]) eq_refl) as [_ Hf].
    rewrite (Hf eq_refl). reflexivity.
Defined.

(** X13: when the keyword setter returns, the keywords it stored are a
    string of units that stand for themselves in a URI and of [%] escapes:
    no white space, no unit outside ASCII, no unpaired surrogate, so the
    query string [fetch] appends holds only such units after its [?]. *)
Theorem X13_stored_keywords_are_escaped (v : value) (o : UnsplashPhoto) :
  returned (prototype.of_ v o) = Normal tt ->
  exists k,
    keywords (receiver (prototype.of_ v o)) = VStr k
    /\ forallb uri_safe k = true
    /\ forallb not_white_space k = true
    /\ lone_surrogate k = false
    /\ (keyword_segment (receiver (prototype.of_ v o)) = []
        \/ keyword_segment (receiver (prototype.of_ v o)) = lit "?" ++ k).
Proof.
  rewrite of_spec.
  destruct (tokens_of v) as [tokens|]; [|discriminate]. cbv zeta.
  destruct (encodeURI _) as [k|] eqn:E; [|discriminate].
  intros _. exists k. pose proof (encodeURI_safe _ E) as S.
  assert (B : forall c, In c k -> (c < 128)%N).
  { rewrite forallb_forall in S. intros c Hc. specialize (S c Hc).
    unfold uri_safe in S. apply orb_true_iff in S. destruct S as [S|S].
    - apply unescaped_below_128, S.
    - apply N.eqb_eq in S. lia. }
  split; [reflexivity|]. split; [exact S|]. split; [|split].
  - apply forallb_forall. intros c Hc. rewrite forallb_forall in S.
    specialize (S c Hc). unfold uri_safe in S. apply orb_true_iff in S.
    destruct S as [S|S]; [apply unescaped_not_white_space, S|].
    apply N.eqb_eq in S. subst c. reflexivity.
  - clear S E. induction k as [|c k IH]; [reflexivity|].
    assert (Hc : (c < 128)%N) by (apply B; left; reflexivity).
    cbn [lone_surrogate]. unfold is_low_surrogate, is_high_surrogate.
    replace (56320 <=? c)%N with false by (symmetry; apply N.leb_gt; lia).
    replace (55296 <=? c)%N with false by (symmetry; apply N.leb_gt; lia).
    cbn [andb]. apply IH. intros c' Hc'. apply B. right. exact Hc'.
  - cbn [receiver snd]. unfold keyword_segment.
    cbn [keywords with_keywords ToBoolean ToString].
    destruct k; [left | right]; reflexivity.
Qed.

Lemma X13_stored_keywords_are_escaped_witness :
  returned (prototype.of_ (VStr ([233%N] ++ lit " b ,c")) new_UnsplashPhoto)
  = Normal tt
  /\ keywords (receiver (prototype.of_ (VStr ([233%N] ++ lit " b ,c"))
                           new_UnsplashPhoto))
     = VStr (lit "%C3%A9%20b,c")
  /\ forallb uri_safe (lit "%C3%A9%20b,c") = true.
Proof.
  destruct (@X13_stored_keywords_are_escaped (VStr ([233%N] ++ lit " b ,c"))
              new_UnsplashPhoto eq_refl) as (k & Hk & Hs & _).
  split; [reflexivity|]. split; [reflexivity|].
  cbv in Hk. inversion Hk. subst k. exact Hs.
Defined.

(** ** [randomize], on any argument *)

Lemma eq_lit_exclusive (v : value) (a b : jsstring) :
  eq_lit v a = true -> eq_lit v b = true -> a = b.
Proof.
  destruct v; simpl; try discriminate; intros Ha Hb;
    apply str_eqb_eq in Ha; apply str_eqb_eq in Hb; congruence.
Qed.

Lemma randomization_segment_after_randomize (v : value) (b : bool)
    (o : UnsplashPhoto) :
  randomization_segment b (receiver (prototype.randomize v o))
  = if eq_lit v (lit "daily") then lit "/daily"
    else if eq_lit v (lit "weekly") then lit "/weekly"
    else if b then lit "/random" else [].
Proof.
  unfold prototype.randomize, randomization_segment.
  assert (P : eq_lit v (lit "daily") || eq_lit v (lit "weekly") = true ->
              eq_lit v (lit "perRequest") = false).
  { intros H. destruct (eq_lit v (lit "perRequest")) eqn:E; [|reflexivity].
    apply orb_true_iff in H. destruct H as [H|H];
      pose proof (eq_lit_exclusive v _ _ E H) as A; discriminate A. }
  destruct (eq_lit v (lit "daily") || eq_lit v (lit "weekly")) eqn:C.
  - cbn [receiver snd assign randomizationInterval
         with_randomizationInterval].
    rewrite (P eq_refl), andb_false_r.
    apply orb_true_iff in C.
    destruct (eq_lit v (lit "daily")); [reflexivity|].
    destruct C as [C|C]; [discriminate C|]. rewrite C. reflexivity.
  - apply orb_false_iff in C. destruct C as [-> ->].
    cbn [receiver snd assign randomizationInterval
         with_randomizationInterval].
    destruct b; reflexivity.
Qed.

(** X14: what [randomize(v)] does to the URL depends on [v] through
    [v == "daily"] and [v == "weekly"] alone, for an argument that is
    [undefined], [null], a boolean, a number, a string or an array of
    these, and whatever interval was set before: a later [fetch] outside
    the id branch puts [/daily] or [/weekly] in the randomization place
    when the test holds, and otherwise what the default interval gives,
    [/random] without selector and nothing with one.  Numbers, booleans,
    [null] and [undefined] store the default; an id lookup is not
    affected. *)
Theorem X14_randomize_any_argument (v : value) (o : UnsplashPhoto) :
  (is_set (id o) = false ->
   returned ((prototype.randomize v ;; prototype.fetch) o)
   = Normal (url o ++ selector_segment (first_selector o) o
             ++ scope_segment o ++ dimension_segment o
             ++ (if eq_lit v (lit "daily") then lit "/daily"
                 else if eq_lit v (lit "weekly") then lit "/weekly"
                 else if includes_random (first_selector o)
                 then lit "/random" else [])
             ++ keyword_segment o))
  /\ (is_set (id o) = true ->
      returned ((prototype.randomize v ;; prototype.fetch) o)
      = returned (prototype.fetch o))
  /\ (is_string_or_list v = false ->
      prototype.randomize v o
      = (Normal tt, with_randomizationInterval (VStr (lit "perRequest")) o)).
Proof.
  assert (R : (prototype.randomize v ;; prototype.fetch) o
              = prototype.fetch (receiver (prototype.randomize v o))).
  { unfold bind, prototype.randomize. destruct (_ || _); reflexivity. }
  assert (F : forall f : UnsplashPhoto -> value,
             (f = id \/ f = username \/ f = category \/ f = collection) ->
             f (receiver (prototype.randomize v o)) = f o).
  { intros f Hf. unfold prototype.randomize.
    destruct (_ || _); destruct Hf as [->|[->|[->| ->]]]; reflexivity. }
  assert (S : first_selector (receiver (prototype.randomize v o))
              = first_selector o).
  { unfold first_selector. rewrite !F; auto. }
  split; [|split].
  - intros Hid. rewrite R, fetch_returned, S.
    pose proof (randomization_segment_after_randomize v
                  (includes_random (first_selector o)) o) as Hseg.
    unfold serialize. f_equal.
    unfold prototype.randomize in *.
    unfold first_selector in *. rewrite Hid in *.
    destruct (eq_lit v (lit "daily") || eq_lit v (lit "weekly"));
      cbn [receiver snd assign] in *;
      (destruct (is_set (username o));
       [cbn [branch_tail includes_random] in *; rewrite Hseg; reflexivity|]);
      (destruct (is_set (category o));
       [cbn [branch_tail includes_random] in *; rewrite Hseg; reflexivity|]);
      destruct (is_set (collection o));
      cbn [branch_tail includes_random] in *; rewrite Hseg; reflexivity.
  - intros Hid. rewrite R, !fetch_returned, S.
    unfold first_selector. rewrite Hid.
    unfold prototype.randomize. destruct (_ || _); reflexivity.
  - intros Hv. unfold prototype.randomize.
    destruct v; try discriminate Hv; reflexivity.
Qed.

Lemma X14_randomize_any_argument_witness :
  let o := receiver ((prototype.randomize (VStr (lit "weekly")) ;;
                      prototype.fromCategory (VStr (lit "nature")))
                     new_UnsplashPhoto) in
  is_set (id o) = false
  /\ returned ((prototype.randomize (VArr [VStr (lit "daily")]) ;;
                prototype.fetch) o)
     = Normal (lit "https://source.unsplash.com/category/nature/daily")
  /\ returned ((prototype.randomize (VBool true) ;; prototype.fetch) o)
     = Normal (lit "https://source.unsplash.com/category/nature").
Proof.
  intros o.
  destruct (X14_randomize_any_argument (VArr [VStr (lit "daily")]) o)
    as (H1 & _).
  destruct (X14_randomize_any_argument (VBool true) o) as (H2 & _).
  split; [reflexivity|]. split.
  - rewrite (H1 eq_refl). reflexivity.
  - rewrite (H2 eq_refl). reflexivity.
Defined.
